(** * goform: binding HTTP request data onto a struct

    A shallow embedding of [unmarshal.go] and [tag.go] of
    github.com/rickbassham/goform.  Go's [reflect.Value] writes become
    explicit state passing over a store of field values; every Go
    function that returns an [error] returns the new store together with
    an optional error.  The pieces of Go's standard library whose
    behaviour the properties below depend on ([strings.Split],
    [strconv.ParseBool], [strconv.ParseInt], [strconv.ParseUint], the
    media-type check of [mime.ParseMediaType], [encoding/base64]'s
    standard encoding) are modelled as executable functions; the
    collaborators the package treats as opaque (JSON, time, image and
    float parsing, request parsing) are the fields of the class [Host]. *)

From Stdlib Require Import ZArith Ascii String Lia.
From stdpp Require Import base option list strings gmap.

(** ** Bytes and strings

    A Go string is a sequence of bytes; so is [string] here, whose
    characters are 8-bit [ascii] values. *)

Definition code (c : ascii) : Z := Z.of_N (N_of_ascii c).

Definition codes (s : string) : list Z := map code (list_ascii_of_string s).

(** ** reflect: kinds and types *)

Inductive Kind :=
| Invalid | Bool
| Int | Int8 | Int16 | Int32 | Int64
| Uint | Uint8 | Uint16 | Uint32 | Uint64 | Uintptr
| Float32 | Float64 | Complex64 | Complex128
| Array | Chan | Func | Interface | Map | Ptr | Slice | String_ | Struct
| UnsafePointer.

Global Instance Kind_eq_dec : EqDecision Kind.
Proof. solve_decision. Defined.

(** The types a field can have.  [TBasic k] is a type of kind [k] that
    does not implement [image.Image] and about which nothing but its
    kind matters: the predeclared scalars, named types over them, and
    for the composite kinds a type that is none of the three singled out
    below (a slice that is not [[]byte], a struct that is not
    [time.Time], an interface other than [image.Image]; for [k = Ptr], a
    pointer to a type of no supported kind).  The types other than
    [image.Image] that implement it ([draw.Image], [image.Rectangle], a
    type of the user with its three methods) are not among the types
    modelled: at a field of such a type [decodeMultipartFile] decodes
    the part as an image, and [Set] panics when the image decoded is not
    assignable to the type. *)
Inductive rtype :=
| TBasic (k : Kind)
| TBytes                (* []byte *)
| TTime                 (* time.Time *)
| TImage                (* image.Image *)
| TPtr (elem : rtype).  (* *elem *)

Global Instance rtype_eq_dec : EqDecision rtype.
Proof. solve_decision. Defined.

Definition Kind_of (t : rtype) : Kind :=
  match t with
  | TBasic k => k
  | TBytes => Slice
  | TTime => Struct
  | TImage => Interface
  | TPtr _ => Ptr
  end.

Definition Elem (t : rtype) : rtype :=
  match t with
  | TPtr elem => elem
  | _ => TBasic Invalid
  end.

(** [t.Implements(reflect.TypeOf(( *image.Image)(nil)).Elem())], on the
    types of [rtype], of which [image.Image] is the only one that
    implements it. *)
Definition Implements_Image (t : rtype) : bool :=
  match t with TImage => true | _ => false end.

(** A struct tag, as the sequence of its [key:"value"] pairs. *)
Definition StructTag := list (string * string).

Fixpoint Tag_Lookup (tag : StructTag) (key : string) : option string :=
  match tag with
  | [] => None
  | (k, v) :: rest => if String.eqb k key then Some v else Tag_Lookup rest key
  end.

Definition Tag_Get (tag : StructTag) (key : string) : string :=
  default ""%string (Tag_Lookup tag key).

Record StructField := {
  Name : string;
  Type_ : rtype;
  Tag : StructTag;
}.

(** ** Errors *)

Inductive numErr :=
| ErrSyntax                (* strconv.ErrSyntax *)
| ErrRange                 (* strconv.ErrRange *)
| ErrBase (b : Z)          (* "invalid base b" *)
| ErrBitSize (n : Z).      (* "invalid bit size n" *)

Inductive error :=
| errorString (msg : string)                     (* errors.New, fmt.Errorf *)
| NumError (Func Num : string) (Err : numErr)    (* *strconv.NumError *)
| CorruptInputError                              (* base64.CorruptInputError *)
| ErrUnexpectedEOF                               (* io.ErrUnexpectedEOF *)
| InvalidUnmarshalError (t : option rtype)       (* *json.InvalidUnmarshalError *)
| hostError (pkg msg : string).                  (* an error of an opaque collaborator *)

Definition errors_New (msg : string) : error := errorString msg.

(** ** strings *)

Module strings.

(** [strings.Split(s, sep)] for a one-byte separator: never empty. *)
Fixpoint Split (s : string) (sep : ascii) : list string :=
  match s with
  | EmptyString => [EmptyString]
  | String c s' =>
      if Ascii.eqb c sep then EmptyString :: Split s' sep
      else match Split s' sep with
           | x :: xs => String c x :: xs
           | [] => [String c EmptyString]
           end
  end.

End strings.

(** ** strconv *)

Module strconv.
Local Open Scope Z_scope.

Definition maxUint64 : Z := 2 ^ 64 - 1.

(** Conversions between Go's fixed-width integers, wrap-around written out. *)
Definition uint64 (x : Z) : Z := x mod 2 ^ 64.
Definition int64 (x : Z) : Z := (x + 2 ^ 63) mod 2 ^ 64 - 2 ^ 63.
Definition byte (x : Z) : Z := x mod 2 ^ 8.

(** [lower(c)]: [c | ('x' - 'X')]. *)
Definition lower (c : Z) : Z := Z.lor c 32.

Definition syntaxError (fn str : string) : error := NumError fn str ErrSyntax.
Definition rangeError (fn str : string) : error := NumError fn str ErrRange.
Definition baseError (fn str : string) (base : Z) : error := NumError fn str (ErrBase base).
Definition bitSizeError (fn str : string) (bitSize : Z) : error :=
  NumError fn str (ErrBitSize bitSize).

Definition ParseBool (str : string) : bool * option error :=
  if decide (str = "1" ∨ str = "t" ∨ str = "T" ∨ str = "true" ∨ str = "TRUE" ∨ str = "True")%string
  then (true, None)
  else if decide (str = "0" ∨ str = "f" ∨ str = "F" ∨ str = "false" ∨ str = "FALSE" ∨ str = "False")%string
  then (false, None)
  else (false, Some (syntaxError "ParseBool" str)).

(** [underscoreOK]: underscores only between digits or after a base prefix. *)
Inductive saw_t := sawStart | sawDigit | sawUnderscore | sawOther.

Fixpoint underscoreLoop (hex : bool) (cs : list Z) (saw : saw_t) : bool :=
  match cs with
  | [] => match saw with sawUnderscore => false | _ => true end
  | c :: cs' =>
      if ((48 <=? c) && (c <=? 57)) || (hex && (97 <=? lower c) && (lower c <=? 102))
      then underscoreLoop hex cs' sawDigit
      else if c =? 95
      then match saw with
           | sawDigit => underscoreLoop hex cs' sawUnderscore
           | _ => false
           end
      else match saw with
           | sawUnderscore => false
           | _ => underscoreLoop hex cs' sawOther
           end
  end.

Definition underscoreOK (s : list Z) : bool :=
  let s := match s with
           | c :: s' => if (c =? 45) || (c =? 43) then s' else s
           | [] => s
           end in
  match s with
  | c0 :: c1 :: s' =>
      if (c0 =? 48) && ((lower c1 =? 98) || (lower c1 =? 111) || (lower c1 =? 120))
      then underscoreLoop (lower c1 =? 120) s' sawDigit
      else underscoreLoop false s sawStart
  | _ => underscoreLoop false s sawStart
  end.

(** The digit loop of [ParseUint]: [inl] when the loop runs to the end,
    [inr] for a [return] from inside it. *)
Fixpoint digitLoop (base0 : bool) (base cutoff maxVal : Z) (cs : list Z)
    (n : Z) (underscores : bool) : (Z * bool) + (Z * numErr) :=
  match cs with
  | [] => inl (n, underscores)
  | c :: cs' =>
      if (c =? 95) && base0 then digitLoop base0 base cutoff maxVal cs' n true
      else
        let d :=
          if (48 <=? c) && (c <=? 57) then Some (c - 48)
          else if (97 <=? lower c) && (lower c <=? 122) then Some (lower c - 97 + 10)
          else None in
        match d with
        | None => inr (0, ErrSyntax)
        | Some d =>
            if d >=? byte base then inr (0, ErrSyntax)
            else if n >=? cutoff then inr (maxVal, ErrRange)
            else
              let n := uint64 (n * base) in
              let n1 := uint64 (n + d) in
              if (n1 <? n) || (n1 >? maxVal) then inr (maxVal, ErrRange)
              else digitLoop base0 base cutoff maxVal cs' n1 underscores
        end
  end.

(** The base and the digits to read, after the prefix inspection of
    [ParseUint]; [None] for an invalid base. *)
Definition pickBase (base : Z) (s : list Z) : option (Z * list Z) :=
  if (2 <=? base) && (base <=? 36) then Some (base, s)
  else if base =? 0 then
    match s with
    | 48 :: c1 :: _ :: _ =>
        if lower c1 =? 98 then Some (2, drop 2 s)
        else if lower c1 =? 111 then Some (8, drop 2 s)
        else if lower c1 =? 120 then Some (16, drop 2 s)
        else Some (8, drop 1 s)
    | 48 :: _ => Some (8, drop 1 s)
    | _ => Some (10, s)
    end
  else None.

Definition ParseUint (IntSize : Z) (s : string) (base bitSize : Z) : Z * option error :=
  let fnParseUint := "ParseUint"%string in
  if decide (s = ""%string) then (0, Some (syntaxError fnParseUint s))
  else
    let base0 := base =? 0 in
    let s0 := s in
    match pickBase base (codes s) with
    | None => (0, Some (baseError fnParseUint s0 base))
    | Some (base, cs) =>
        let bitSize' :=
          if bitSize =? 0 then Some IntSize
          else if (bitSize <? 0) || (bitSize >? 64) then None
          else Some bitSize in
        match bitSize' with
        | None => (0, Some (bitSizeError fnParseUint s0 bitSize))
        | Some bitSize =>
            let cutoff := maxUint64 / base + 1 in
            let maxVal := uint64 (uint64 (2 ^ bitSize) - 1) in
            match digitLoop base0 base cutoff maxVal cs 0 false with
            | inr (v, e) => (v, Some (NumError fnParseUint s0 e))
            | inl (n, underscores) =>
                if underscores && negb (underscoreOK (codes s0))
                then (0, Some (syntaxError fnParseUint s0))
                else (n, None)
            end
        end
    end.

Definition ParseInt (IntSize : Z) (s : string) (base bitSize : Z) : Z * option error :=
  let fnParseInt := "ParseInt"%string in
  match s with
  | EmptyString => (0, Some (syntaxError fnParseInt s))
  | String c0 rest =>
      let s0 := s in
      let '(neg, s) :=
        if Ascii.eqb c0 "+" then (false, rest)
        else if Ascii.eqb c0 "-" then (true, rest)
        else (false, s) in
      let '(un, err) := ParseUint IntSize s base bitSize in
      (* if err != nil && err.( *NumError).Err != ErrRange *)
      let fatal :=
        match err with
        | None | Some (NumError _ _ ErrRange) => None
        | Some (NumError _ _ e) => Some (NumError fnParseInt s0 e)
        | Some e => Some e
        end in
      match fatal with
      | Some err => (0, Some err)
      | None =>
          let bitSize := if bitSize =? 0 then IntSize else bitSize in
          let cutoff := uint64 (2 ^ (bitSize - 1)) in
          if negb neg && (un >=? cutoff)
          then (int64 (cutoff - 1), Some (rangeError fnParseInt s0))
          else if neg && (un >? cutoff)
          then (int64 (- int64 cutoff), Some (rangeError fnParseInt s0))
          else
            let n := int64 un in
            (if neg then int64 (- n) else n, None)
      end
  end.

(** [strconv.FormatBool] *)
Definition FormatBool (b : bool) : string := if b then "true" else "false".

Definition digit (d : Z) : ascii := ascii_of_N (Z.to_N (48 + d)).

(** The decimal digits of [u] in front of [acc], least significant
    digit first as [formatBits] produces them; [fuel] bounds their number. *)
Fixpoint formatDigits (fuel : nat) (u : Z) (acc : string) : string :=
  match fuel with
  | O => acc
  | S fuel' =>
      let acc' := String (digit (u mod 10)) acc in
      if u <? 10 then acc' else formatDigits fuel' (u / 10) acc'
  end.

(** [strconv.FormatUint(u, 10)] for a [uint64]. *)
Definition FormatUint (u : Z) : string := formatDigits 20 u EmptyString.

(** [strconv.FormatInt(i, 10)] for an [int64]. *)
Definition FormatInt (i : Z) : string :=
  if i <? 0 then String "-" (FormatUint (- i)) else FormatUint i.

End strconv.

(** ** io and encoding/base64 *)

(** A byte stream: the bytes it delivers and how it ends, at end of file
    ([None]) or with a read failure. *)
Record reader := {
  r_data : list ascii;
  r_err : option error;
}.

(** [ioutil.ReadAll] *)
Definition ReadAll (r : reader) : list ascii * option error :=
  (r_data r, r_err r).

Module base64.
Local Open Scope Z_scope.

Definition encodeStd : string :=
  "ABCDEFGHIJKLMNOPQRSTUVWXYZabcdefghijklmnopqrstuvwxyz0123456789+/".

Definition padChar : ascii := "=".

Definition byte_of (n : Z) : ascii := ascii_of_N (Z.to_N (n mod 256)).

Definition encodeMap (i : Z) : ascii :=
  nth (Z.to_nat i) (list_ascii_of_string encodeStd) "A"%char.

(** [decodeMap[c]], [None] where Go's table holds 0xff. *)
Definition decodeMap (c : ascii) : option Z :=
  (λ p, Z.of_nat (fst p)) <$> list_find (λ a, a = c) (list_ascii_of_string encodeStd).

(** [StdEncoding.Encode]: three bytes give four characters; a last
    group of one or two bytes is padded with [=]. *)
Fixpoint Encode (src : list ascii) : list ascii :=
  match src with
  | [] => []
  | [a] =>
      let a := code a in
      [encodeMap (a / 4); encodeMap (a mod 4 * 16); padChar; padChar]
  | [a; b] =>
      let a := code a in let b := code b in
      [encodeMap (a / 4); encodeMap (a mod 4 * 16 + b / 16);
       encodeMap (b mod 16 * 4); padChar]
  | a :: b :: c :: rest =>
      let a := code a in let b := code b in let c := code c in
      encodeMap (a / 4) :: encodeMap (a mod 4 * 16 + b / 16)
        :: encodeMap (b mod 16 * 4 + c / 64) :: encodeMap (c mod 64)
        :: Encode rest
  end.

(** The bytes of one quantum, from its 6-bit values. *)
Definition quantum (v1 v2 v3 v4 : Z) : list ascii :=
  let val := Z.lor (Z.lor (Z.lor (Z.shiftl v1 18) (Z.shiftl v2 12)) (Z.shiftl v3 6)) v4 in
  [byte_of (Z.shiftr val 16); byte_of (Z.shiftr val 8); byte_of val].

(** Decoding of a whole newline-free input, quantum by quantum: the
    bytes decoded and the error that ends the decoding, if any.  Trailing
    bits of a padded quantum are not checked (the encoding is not
    strict).  How much of a malformed input Go's streaming decoder
    accepts depends on how its reads are chunked; this is its behaviour
    when the input arrives in one piece. *)
Fixpoint decodeQuanta (src : list ascii) : list ascii * option error :=
  match src with
  | [] => ([], None)
  | c1 :: c2 :: c3 :: c4 :: rest =>
      match decodeMap c1, decodeMap c2 with
      | Some v1, Some v2 =>
          let trailing : option error :=
            match rest with [] => None | _ => Some CorruptInputError end in
          match decodeMap c3, decodeMap c4 with
          | Some v3, Some v4 =>
              let '(out, e) := decodeQuanta rest in
              (quantum v1 v2 v3 v4 ++ out, e)
          | Some v3, None =>
              if Ascii.eqb c4 padChar
              then (take 2 (quantum v1 v2 v3 0), trailing)
              else ([], Some CorruptInputError)
          | None, _ =>
              if Ascii.eqb c3 padChar && Ascii.eqb c4 padChar
              then (take 1 (quantum v1 v2 0 0), trailing)
              else ([], Some CorruptInputError)
          end
      | _, _ => ([], Some CorruptInputError)
      end
  | _ => ([], Some ErrUnexpectedEOF)
  end.

Definition isNewline (c : ascii) : bool := Ascii.eqb c "010" || Ascii.eqb c "013".

(** [base64.NewDecoder(base64.StdEncoding, r)]: carriage returns and
    line feeds are dropped before decoding. *)
Definition NewDecoder (r : reader) : reader :=
  let '(out, e) := decodeQuanta (filter (λ c, isNewline c = false) (r_data r)) in
  {| r_data := out;
     r_err := match e, r_err r with
              | Some ErrUnexpectedEOF, Some re => Some re
              | Some e, _ => Some e
              | None, re => re
              end |}.

End base64.

(** ** mime *)

Module mime.
Local Open Scope Z_scope.

Definition isTSpecial (c : ascii) : bool :=
  bool_decide (c ∈ "034"%char :: list_ascii_of_string "()<>@,;:\/[]?=").

Definition isTokenChar (c : ascii) : bool :=
  (32 <? code c) && (code c <? 127) && negb (isTSpecial c).

(** [consumeToken]: the longest prefix of token characters, and the rest. *)
Fixpoint consumeToken (v : string) : string * string :=
  match v with
  | EmptyString => (EmptyString, EmptyString)
  | String c v' =>
      if isTokenChar c
      then let '(tok, rest) := consumeToken v' in (String c tok, rest)
      else (EmptyString, v)
  end.

Definition checkMediaTypeDisposition (s : string) : option error :=
  let '(typ, rest) := consumeToken s in
  if decide (typ = ""%string) then Some (errors_New "mime: no media type")
  else if decide (rest = ""%string) then None
  else match rest with
       | String "/" rest1 =>
           let '(subtype, rest2) := consumeToken rest1 in
           if decide (subtype = ""%string)
           then Some (errors_New "mime: expected token after slash")
           else if decide (rest2 = ""%string) then None
           else Some (errors_New "mime: unexpected content after media subtype")
       | _ => Some (errors_New "mime: expected slash after first token")
       end.

(** The part of [v] before the first [;], and the rest from it on. *)
Fixpoint cutParams (v : string) : string * string :=
  match v with
  | EmptyString => (EmptyString, EmptyString)
  | String c v' =>
      if Ascii.eqb c ";" then (EmptyString, v)
      else let '(hd, tl) := cutParams v' in (String c hd, tl)
  end.

(** [strings.ToLower] and [strings.TrimSpace] on ASCII text: the letters
    [A] to [Z] and the six ASCII white spaces.  On a header value with
    bytes above 127 the functions of Go also map the letters and trim
    the spaces of Unicode; such values are outside the model. *)
Definition toLower (c : ascii) : ascii :=
  if (65 <=? code c) && (code c <=? 90) then ascii_of_N (N_of_ascii c + 32) else c.

Fixpoint ToLower (s : string) : string :=
  match s with
  | EmptyString => EmptyString
  | String c s' => String (toLower c) (ToLower s')
  end.

Definition isSpace (c : ascii) : bool :=
  bool_decide (code c ∈ [9; 10; 11; 12; 13; 32]).

Fixpoint TrimLeft (s : string) : string :=
  match s with
  | EmptyString => EmptyString
  | String c s' => if isSpace c then TrimLeft s' else s
  end.

Fixpoint TrimRight (s : string) : string :=
  match s with
  | EmptyString => EmptyString
  | String c s' =>
      match TrimRight s' with
      | EmptyString => if isSpace c then EmptyString else String c EmptyString
      | t => String c t
      end
  end.

Definition TrimSpace (s : string) : string := TrimRight (TrimLeft s).

End mime.

(** [mime.ParseMediaType], for its media type and its error; [params]
    stands for the parsing of the parameters after the first [;]. *)
Definition mime_ParseMediaType (params : string → option error) (v : string)
    : string * option error :=
  let '(hd, tl) := mime.cutParams v in
  let mediatype := mime.TrimSpace (mime.ToLower hd) in
  match mime.checkMediaTypeDisposition mediatype with
  | Some err => (EmptyString, Some err)
  | None =>
      match params tl with
      | Some err => (mediatype, Some err)
      | None => (mediatype, None)
      end
  end.

(** ** Values of fields *)

Inductive result (A : Type) :=
| Ok (a : A)
| Err (e : error).
Arguments Ok {A} a.
Arguments Err {A} e.

Section values.
Context {float64 Time Image : Type}.

Inductive value :=
| VBool (b : bool)
| VInt (n : Z)
| VUint (n : Z)
| VFloat (x : float64)
| VString (s : string)
| VBytes (b : list ascii)
| VTime (t : Time)
| VImage (i : Image)
| VPtr (v : value)     (* a pointer to a variable that holds [v] *)
| VNil                 (* nil: pointer, slice, interface, map, chan, func *)
| VZero.               (* the zero value of a type of any other kind *)

End values.
Arguments value : clear implicits.

(** ** mime/multipart and net/http *)

Module multipart.

Record FileHeader := {
  Filename : string;
  Open : result reader;
}.

Record Form := {
  Value : gmap string (list string);
  File : gmap string (list FileHeader);
}.

End multipart.

Module http.

Record Request := {
  Header : gmap string (list string);
  Body : list ascii;
  BodyClosed : bool;
  Form : gmap string (list string);
  MultipartForm : option multipart.Form;
}.

(** [h.Get(key)] for a key in canonical form: the first value, or the
    empty string. *)
Definition Header_Get (h : gmap string (list string)) (key : string) : string :=
  match h !! key with
  | Some (v :: _) => v
  | _ => EmptyString
  end.

(** [r.Body.Close()] *)
Definition closeBody (r : Request) : Request :=
  {| Header := Header r; Body := Body r; BodyClosed := true;
     Form := Form r; MultipartForm := MultipartForm r |}.

End http.

(** ** The host: platform and opaque collaborators *)

Inductive wordsize := W32 | W64.

Class Host := {
  word : wordsize;
  float64 : Type;
  float64_zero : float64;
  float32_of : float64 → float64;
  ParseFloat : string → Z → float64 * option error;
  Time : Type;
  Location : Type;
  Time_zero : Time;
  time_Parse : string → string → Time * option error;
  time_LoadLocation : string → result Location;
  time_ParseInLocation : string → string → Location → Time * option error;
  Image : Type;
  image_Decode : reader → result Image;
  json_readValue : list ascii → option error;
  json_unmarshal :
    list ascii → list StructField → gmap string (value float64 Time Image)
    → gmap string (value float64 Time Image) * option error;
  mime_params : string → option error;
  ParseMultipartForm : http.Request → Z → http.Request;
}.

(** ** tag.go *)

Record flags := {
  base64 : bool;
  required : bool;
}.

Definition parseTag (tag : string) : string * flags :=
  let split := strings.Split tag "," in
  match split with
  | key :: options =>
      let f :=
        fold_left
          (λ (f : flags) (option : string),
             if decide (option = "base64"%string)
             then {| base64 := true; required := required f |}
             else if decide (option = "required"%string)
             then {| base64 := base64 f; required := true |}
             else f)
          options {| base64 := false; required := false |} in
      (key, f)
  | [] => (EmptyString, {| base64 := false; required := false |})
  end.

Section goform.
Context `{Host}.
Local Open Scope Z_scope.

Local Abbreviation val := (value float64 Time Image).
Local Abbreviation store := (gmap string (value float64 Time Image)).

Definition IntSize : Z := match word with W32 => 32 | W64 => 64 end.

(** [int(x)] for an [int64] [x]. *)
Definition int (x : Z) : Z := (x + 2 ^ (IntSize - 1)) mod 2 ^ IntSize - 2 ^ (IntSize - 1).

Definition base (tag : StructTag) : Z * option error :=
  match Tag_Lookup tag "base" with
  | Some baseStr =>
      let '(base, err) := strconv.ParseInt IntSize baseStr 10 32 in
      match err with
      | Some _ => (int base, Some (errors_New "invalid int base"))
      | None => (int base, None)
      end
  | None => (int 10, None)
  end.

(** ** reflect: values

    A [reflect.Value] that addresses a field of the destination struct,
    or the variable a pointer field points to, with its type. *)
Inductive place :=
| Field (name : string)
| Pointee (name : string).

Record Value := {
  at_ : place;
  Type_of : rtype;
}.

(** The zero value of a type. *)
Definition zero (t : rtype) : val :=
  match t with
  | TBasic Bool => VBool false
  | TBasic (Int | Int8 | Int16 | Int32 | Int64) => VInt 0
  | TBasic (Uint | Uint8 | Uint16 | Uint32 | Uint64 | Uintptr) => VUint 0
  | TBasic (Float32 | Float64) => VFloat float64_zero
  | TBasic String_ => VString EmptyString
  | TBasic (Chan | Func | Interface | Map | Ptr | Slice | UnsafePointer) => VNil
  | TBasic _ => VZero
  | TBytes => VNil
  | TTime => VTime Time_zero
  | TImage => VNil
  | TPtr _ => VNil
  end.

(** [valf.Set(x)] *)
Definition Set_ (s : store) (valf : Value) (x : val) : store :=
  match at_ valf with
  | Field name => <[name := x]> s
  | Pointee name => <[name := VPtr x]> s
  end.

Definition wrap_signed (w x : Z) : Z := (x + 2 ^ (w - 1)) mod 2 ^ w - 2 ^ (w - 1).
Definition wrap_unsigned (w x : Z) : Z := x mod 2 ^ w.

(** The width of an integer kind. *)
Definition bits (k : Kind) : Z :=
  match k with
  | Int8 | Uint8 => 8
  | Int16 | Uint16 => 16
  | Int32 | Uint32 => 32
  | Int64 | Uint64 => 64
  | _ => IntSize
  end.

Definition SetBool (s : store) (valf : Value) (x : bool) : store := Set_ s valf (VBool x).
Definition SetString (s : store) (valf : Value) (x : string) : store := Set_ s valf (VString x).
Definition SetBytes (s : store) (valf : Value) (x : list ascii) : store := Set_ s valf (VBytes x).
Definition SetInt (s : store) (valf : Value) (x : Z) : store :=
  Set_ s valf (VInt (wrap_signed (bits (Kind_of (Type_of valf))) x)).
Definition SetUint (s : store) (valf : Value) (x : Z) : store :=
  Set_ s valf (VUint (wrap_unsigned (bits (Kind_of (Type_of valf))) x)).
Definition SetFloat (s : store) (valf : Value) (x : float64) : store :=
  Set_ s valf (VFloat (match Kind_of (Type_of valf) with Float32 => float32_of x | _ => x end)).

(** [val.FieldByName(name)], for the field of that name and type. *)
Definition FieldByName (name : string) (t : rtype) : Value :=
  {| at_ := Field name; Type_of := t |}.

(** [reflect.Indirect(valf)] for a pointer field that is not nil. *)
Definition Indirect (valf : Value) : Value :=
  match at_ valf with
  | Field name => {| at_ := Pointee name; Type_of := Elem (Type_of valf) |}
  | Pointee _ => valf
  end.

(** ** unmarshal.go *)

Definition defaultMaxMemory : Z := Z.shiftl 32 20.

Definition RFC3339 : string := "2006-01-02T15:04:05Z07:00".

Definition decodeBool (valf : Value) (value : string) (s : store) : store * option error :=
  let '(boolVal, err) := strconv.ParseBool value in
  match err with
  | Some err => (s, Some err)
  | None => (SetBool s valf boolVal, None)
  end.

Definition decodeFloat (valf : Value) (bitSize : Z) (value : string) (s : store)
    : store * option error :=
  let '(floatVal, err) := ParseFloat value bitSize in
  match err with
  | Some err => (s, Some err)
  | None => (SetFloat s valf floatVal, None)
  end.

Definition decodeInt (valf : Value) (tag : StructTag) (bitSize : Z) (value : string) (s : store)
    : store * option error :=
  let '(b, err) := base tag in
  match err with
  | Some err => (s, Some err)
  | None =>
      let '(intVal, err) := strconv.ParseInt IntSize value b bitSize in
      match err with
      | Some err => (s, Some err)
      | None => (SetInt s valf intVal, None)
      end
  end.

Definition decodeUint (valf : Value) (tag : StructTag) (bitSize : Z) (value : string) (s : store)
    : store * option error :=
  let '(b, err) := base tag in
  match err with
  | Some err => (s, Some err)
  | None =>
      let '(intVal, err) := strconv.ParseUint IntSize value b bitSize in
      match err with
      | Some err => (s, Some err)
      | None => (SetUint s valf intVal, None)
      end
  end.

Definition decodeStruct (valf : Value) (f : StructField) (formValue : string) (s : store)
    : store * option error :=
  if decide (Type_of valf = TTime) then
    let format := Tag_Get (Tag f) "format" in
    let format := if decide (format = EmptyString) then RFC3339 else format in
    let tz := Tag_Get (Tag f) "tz" in
    let parsed : result (Time * option error) :=
      if decide (tz = EmptyString) then Ok (time_Parse format formValue)
      else match time_LoadLocation tz with
           | Err err => Err err
           | Ok loc => Ok (time_ParseInLocation format formValue loc)
           end in
    match parsed with
    | Err err => (s, Some err)
    | Ok (_, Some err) => (s, Some err)
    | Ok (timeVal, None) => (Set_ s valf (VTime timeVal), None)
    end
  else (s, Some (errors_New "goform: invalid destination type")).

Definition decodeFormValue (valf : Value) (kind : Kind) (f : StructField)
    (formValue : string) (s : store) : store * option error :=
  match kind with
  | Slice =>
      if decide (Type_of valf = TBytes)
      then (SetBytes s valf (list_ascii_of_string formValue), None)
      else (s, None)
  | String_ => (SetString s valf formValue, None)
  | Bool => decodeBool valf formValue s
  | Int => decodeInt valf (Tag f) 0 formValue s
  | Int8 => decodeInt valf (Tag f) 8 formValue s
  | Int16 => decodeInt valf (Tag f) 16 formValue s
  | Int32 => decodeInt valf (Tag f) 32 formValue s
  | Int64 => decodeInt valf (Tag f) 64 formValue s
  | Uint => decodeUint valf (Tag f) 0 formValue s
  | Uint8 => decodeUint valf (Tag f) 8 formValue s
  | Uint16 => decodeUint valf (Tag f) 16 formValue s
  | Uint32 => decodeUint valf (Tag f) 32 formValue s
  | Uint64 => decodeUint valf (Tag f) 64 formValue s
  | Float32 => decodeFloat valf 32 formValue s
  | Float64 => decodeFloat valf 64 formValue s
  | Struct => decodeStruct valf f formValue s
  | _ => (s, Some (errors_New "goform: invalid destination type"))
  end.

Definition decodeMultipartFile (valf : Value) (kind : Kind) (tagOptions : flags)
    (hdr : multipart.FileHeader) (s : store) : store * option error :=
  match multipart.Open hdr with
  | Err err => (s, Some err)
  | Ok data =>
      let rdr := data in
      let rdr := if base64 tagOptions then base64.NewDecoder rdr else rdr in
      if decide (Type_of valf = TBytes) then
        let '(readData, err) := ReadAll rdr in
        match err with
        | Some err => (s, Some err)
        | None => (SetBytes s valf readData, None)
        end
      else if Implements_Image (Type_of valf) then
        match image_Decode rdr with
        | Err err => (s, Some err)
        | Ok img => (Set_ s valf (VImage img), None)
        end
      else (s, None)
  end.

(** [fmt.Errorf("goform: missing required field [%s]", tag)] *)
Definition missingRequired (tag : string) : error :=
  errorString ("goform: missing required field [" +:+ tag +:+ "]").

Definition decodeMultipart (r : http.Request) (tag : string) (valf : Value) (kind : Kind)
    (tagOptions : flags) (s : store) : store * option error :=
  match http.MultipartForm r with
  | Some form =>
      let headers := default [] (multipart.File form !! tag) in
      match headers with
      | [] => if required tagOptions then (s, Some (missingRequired tag)) else (s, None)
      | hdr0 :: _ => decodeMultipartFile valf kind tagOptions hdr0 s
      end
  | None => if required tagOptions then (s, Some (missingRequired tag)) else (s, None)
  end.

(** The body of the loop of [Unmarshal] for the field [f]: the store
    after it, and the error it returns with if it does not go on to the
    next field. *)
Definition bindField (r : http.Request) (f : StructField) (s : store) : store * option error :=
  let '(tag, tagOptions) := parseTag (Tag_Get (Tag f) "form") in
  if decide (tag = EmptyString ∨ tag = "-"%string) then (s, None)
  else
    let valf := FieldByName (Name f) (Type_ f) in
    let kind := Kind_of (Type_ f) in
    let '(s, valf, kind) :=
      if decide (kind = Ptr)
      then (Set_ s valf (VPtr (zero (Elem (Type_ f)))), Indirect valf, Kind_of (Elem (Type_ f)))
      else (s, valf, kind) in
    let formValues := default [] (http.Form r !! tag) in
    if decide (1 < length formValues)%nat
    then (s, Some (errors_New "goform: arrays not supported yet"))
    else match formValues with
         | [] => decodeMultipart r tag valf kind tagOptions s
         | formValue :: _ => decodeFormValue valf kind f formValue s
         end.

(** The loop over the fields, in declaration order. *)
Fixpoint bindFields (r : http.Request) (fields : list StructField) (s : store)
    : store * option error :=
  match fields with
  | [] => (s, None)
  | f :: rest =>
      match bindField r f s with
      | (s', Some err) => (s', Some err)
      | (s', None) => bindFields r rest s'
      end
  end.

(** The destination [v]: the nil interface, a pointer to a struct with
    its declared fields and their values, or a value of any other type
    [t].  When [t] is of pointer kind, [DValue t] stands for a pointer
    that is not nil to something that is not a struct, which the JSON
    decoder accepts and at which [t.NumField()] panics; a nil pointer
    (which the JSON decoder rejects, and with which a struct without
    tagged fields goes through the loop) and the errors of the JSON
    decoder at such a pointer are not modelled, and no property below is
    about a destination of pointer kind other than [DPtr]. *)
Inductive Dest :=
| DNil
| DValue (t : rtype)
| DPtr (fields : list StructField) (s : store).

Inductive outcome :=
| Returned (err : option error)
| Panicked.

(** [json.NewDecoder(r.Body).Decode(v)] *)
Definition json_Decode (body : list ascii) (v : Dest) : Dest * option error :=
  match json_readValue body with
  | Some err => (v, Some err)
  | None =>
      match v with
      | DNil => (v, Some (InvalidUnmarshalError None))
      | DValue t =>
          if decide (Kind_of t = Ptr) then (v, None)
          else (v, Some (InvalidUnmarshalError (Some t)))
      | DPtr fields s =>
          let '(s', err) := json_unmarshal body fields s in (DPtr fields s', err)
      end
  end.

Definition Unmarshal (r : http.Request) (v : Dest) : http.Request * Dest * outcome :=
  let '(mediaType, err) :=
    mime_ParseMediaType mime_params (http.Header_Get (http.Header r) "Content-Type") in
  match err with
  | Some err => (r, v, Returned (Some err))
  | None =>
      let '(v, err) :=
        if decide (mediaType = "application/json"%string)
        then json_Decode (http.Body r) v
        else (v, None) in
      match err with
      | Some err => (http.closeBody r, v, Returned (Some err))
      | None =>
          match v with
          | DNil => (http.closeBody r, v, Panicked)
          | DValue t =>
              if decide (Kind_of t = Ptr) then (http.closeBody r, v, Panicked)
              else (http.closeBody r, v,
                    Returned (Some (errors_New "goform: v must be a pointer")))
          | DPtr fields s =>
              let r := ParseMultipartForm r defaultMaxMemory in
              let '(s, err) := bindFields r fields s in
              (http.closeBody r, DPtr fields s, Returned err)
          end
      end
  end.

End goform.

(** ** Vocabulary of the properties *)

(** The name of the field a [reflect.Value] writes to. *)
Definition target (valf : Value) : string :=
  match at_ valf with Field name => name | Pointee name => name end.

(** [s'] differs from [s] at most at the field [name]. *)
Definition only_at `{Host} (name : string) (s s' : gmap string (value float64 Time Image))
    : Prop :=
  ∀ n, n ≠ name → s' !! n = s !! n.

(** The store with the pointer field of [f] allocated, as lines 65-69 of
    [Unmarshal] leave it. *)
Definition allocate `{Host} (f : StructField) (s : gmap string (value float64 Time Image))
    : gmap string (value float64 Time Image) :=
  if decide (Kind_of (Type_ f) = Ptr)
  then <[Name f := VPtr (zero (Elem (Type_ f)))]> s
  else s.

(** Whether the request holds a file part under [tag]. *)
Definition hasFile (r : http.Request) (tag : string) : bool :=
  match http.MultipartForm r with
  | Some form => bool_decide (default [] (multipart.File form !! tag) ≠ [])
  | None => false
  end.

(** The sentence "a pointer field is allocated only when a form value or
    a file part is written into it": with neither under its key, and the
    field not required, the step of the loop leaves the field as it was. *)
Definition allocated_lazily `{Host} (r : http.Request) (f : StructField)
    (s : gmap string (value float64 Time Image)) : Prop :=
  ∀ elem tag tagOptions,
    Type_ f = TPtr elem →
    parseTag (Tag_Get (Tag f) "form") = (tag, tagOptions) →
    tag ≠ EmptyString → tag ≠ "-"%string →
    default [] (http.Form r !! tag) = [] →
    hasFile r tag = false →
    required tagOptions = false →
    (bindField r f s).1 !! Name f = s !! Name f.

(** The sentence "a field that is not required and has no form value is
    left at its zero value, and binding goes on". *)
Definition optional_left_zero `{Host} (r : http.Request) (f : StructField)
    (s : gmap string (value float64 Time Image)) : Prop :=
  ∀ tag tagOptions,
    parseTag (Tag_Get (Tag f) "form") = (tag, tagOptions) →
    tag ≠ EmptyString → tag ≠ "-"%string →
    default [] (http.Form r !! tag) = [] →
    required tagOptions = false →
    s !! Name f = Some (zero (Type_ f)) →
    (bindField r f s).1 !! Name f = Some (zero (Type_ f)) ∧ (bindField r f s).2 = None.

(** The field [name] holds a pointer that is not nil. *)
Definition points `{Host} (name : string) (s : gmap string (value float64 Time Image)) : Prop :=
  ∃ v, s !! name = Some (VPtr v).

(** The kinds [decodeFormValue] has a case for. *)
Definition handled (k : Kind) : bool :=
  match k with
  | Bool | Int | Int8 | Int16 | Int32 | Int64
  | Uint | Uint8 | Uint16 | Uint32 | Uint64
  | Float32 | Float64 | String_ | Slice | Struct => true
  | _ => false
  end.

(** The content of an upload that is the base64 text of [decoded]:
    the decoder, fed [content] with its line breaks dropped, delivers
    [decoded] and ends without error. *)
Definition decodes_to (content decoded : list ascii) : Prop :=
  base64.decodeQuanta (filter (λ c, base64.isNewline c = false) content) = (decoded, None).

Definition isSigned (k : Kind) : bool :=
  match k with Int | Int8 | Int16 | Int32 | Int64 => true | _ => false end.

Definition isUnsigned (k : Kind) : bool :=
  match k with Uint | Uint8 | Uint16 | Uint32 | Uint64 => true | _ => false end.

(** The bit size [decodeFormValue] passes on for an integer kind. *)
Definition bitSize_of (k : Kind) : Z :=
  match k with
  | Int8 | Uint8 => 8
  | Int16 | Uint16 => 16
  | Int32 | Uint32 => 32
  | Int64 | Uint64 => 64
  | _ => 0
  end.

(** The base a tag asks for: 10 without a [base] annotation, else the
    annotation read as a base-10 numeral of a 32-bit integer. *)
Definition requested_base `{Host} (tag : StructTag) : result Z :=
  match Tag_Lookup tag "base" with
  | None => Ok 10%Z
  | Some baseStr =>
      match strconv.ParseInt IntSize baseStr 10 32 with
      | (b, None) => Ok b
      | (_, Some _) => Err (errors_New "invalid int base")
      end
  end.

(** The bit sizes [goform] asks for, and the width each stands for. *)
Definition bitWidth (IntSize bitSize : Z) : Z :=
  if (bitSize =? 0)%Z then IntSize else bitSize.

Definition goWidth (IntSize bitSize : Z) : Prop :=
  (IntSize = 32 ∨ IntSize = 64)%Z ∧
  (bitSize = 0 ∨ bitSize = 8 ∨ bitSize = 16 ∨ bitSize = 32 ∨ bitSize = 64)%Z.

(** ** Sample host and inputs *)

(** A host on which floats, times and images are kept as the text or
    bytes they were read from, JSON bodies are empty objects, and the
    request arrives with its form already parsed (on such a request
    [ParseMultipartForm] changes nothing). *)
Definition textHost : Host := {|
  word := W64;
  float64 := string;
  float64_zero := "0";
  float32_of := λ x, x;
  ParseFloat := λ s _, (s, None);
  Time := string;
  Location := string;
  Time_zero := EmptyString;
  time_Parse := λ _ v, (v, None);
  time_LoadLocation := λ tz, Ok tz;
  time_ParseInLocation := λ _ v _, (v, None);
  Image := list ascii;
  image_Decode := λ r, match r_err r with Some e => Err e | None => Ok (r_data r) end;
  json_readValue := λ _, None;
  json_unmarshal := λ _ _ s, (s, None);
  mime_params := λ _, None;
  ParseMultipartForm := λ r _, r;
|}.

Abbreviation tvalue := (value string string (list ascii)).

Definition formRequest (contentType : string) (form : list (string * list string))
    (files : option (list (string * list multipart.FileHeader))) : http.Request :=
  {| http.Header := {[ "Content-Type"%string := [contentType] ]};
     http.Body := [];
     http.BodyClosed := false;
     http.Form := list_to_map form;
     http.MultipartForm :=
       (λ fs, {| multipart.Value := ∅; multipart.File := list_to_map fs |}) <$> files |}.

Definition field (name : string) (t : rtype) (form : string) : StructField :=
  {| Name := name; Type_ := t; Tag := [("form"%string, form)] |}.

(** [struct { ID int `form:"id"`; Age int `form:"age"`; Name string `form:"name"` }] *)
Definition bodyFields : list StructField :=
  [field "ID" (TBasic Int) "id"; field "Age" (TBasic Int) "age";
   field "Name" (TBasic String_) "name"].

Definition bodyZero : gmap string tvalue :=
  list_to_map [("ID", VInt 0); ("Age", VInt 0); ("Name", VString EmptyString)]%string.

Definition urlencoded : string := "application/x-www-form-urlencoded".

(** [age=x]: the second field of [bodyFields] does not parse. *)
Definition badAge : http.Request :=
  formRequest urlencoded [("id", ["1"]); ("age", ["x"]); ("name", ["rick"])]%string None.

(** [name=rick&name=bob]: two values under the key of the third field. *)
Definition twoNames : http.Request :=
  formRequest urlencoded [("id", ["1"]); ("age", ["39"]); ("name", ["rick"; "bob"])]%string None.

(** [Nick *string `form:"nick"`] and a request without [nick]. *)
Definition nickField : StructField := field "Nick" (TPtr (TBasic String_)) "nick".

Definition onlyID : http.Request := formRequest urlencoded [("id", ["1"])]%string None.

(** [Score *int `form:"score"`] and a multipart request with no file. *)
Definition scoreField : StructField := field "Score" (TPtr (TBasic Int)) "score".

Definition noFiles : http.Request :=
  formRequest "multipart/form-data; boundary=x" [("id", ["1"])]%string (Some []).

(** [Avatar []byte `form:"avatar"`] and an upload of "ABCD" under [avatar]. *)
Definition avatarField : StructField := field "Avatar" TBytes "avatar".

Definition avatarUpload : http.Request :=
  formRequest "multipart/form-data; boundary=x" [("id", ["1"])]%string
    (Some [("avatar"%string,
            [{| multipart.Filename := "avatar";
                multipart.Open := Ok {| r_data := list_ascii_of_string "ABCD";
                                        r_err := None |} |}])]).

(** [Something string `form:"something,required"`] *)
Definition somethingField : StructField := field "Something" (TBasic String_) "something,required".

(** [Tags []int `form:"tags"`] with [tags=1]. *)
Definition tagsField : StructField := field "Tags" (TBasic Slice) "tags".

Definition oneTag : http.Request := formRequest urlencoded [("tags", ["1"])]%string None.

Definition plainRequest : http.Request :=
  {| http.Header := ∅; http.Body := []; http.BodyClosed := false;
     http.Form := {[ "id"%string := ["1"%string] ]}; http.MultipartForm := None |}.

Definition jsonRequest : http.Request :=
  formRequest "application/json; charset=utf-8" [] None.

(** [Headshot []byte `form:"headshot,base64"`] and an upload of the
    base64 text of "ABCD". *)
Definition headshotField : StructField := field "Headshot" TBytes "headshot,base64".

Definition upload (content : string) : multipart.FileHeader :=
  {| multipart.Filename := "headshot";
     multipart.Open := Ok {| r_data := list_ascii_of_string content; r_err := None |} |}.

Definition headshotUpload : http.Request :=
  formRequest "multipart/form-data; boundary=x" [("id", ["1"])]%string
    (Some [("headshot"%string, [upload "QUJDRA=="])]).

(** [Mask uint8 `form:"mask" base:"16"`] with [mask=fF]. *)
Definition maskField : StructField :=
  {| Name := "Mask"; Type_ := TBasic Uint8;
     Tag := [("form", "mask"); ("base", "16")]%string |}.

(** ** Vocabulary and inputs of the further properties *)

(** What a decoder does to the store: nothing, or one write through [valf]. *)
Definition applied `{Host} (valf : Value) (o : option (value float64 Time Image))
    (s : gmap string (value float64 Time Image)) : gmap string (value float64 Time Image) :=
  match o with
  | Some x => Set_ s valf x
  | None => s
  end.

(** What a step of the loop does to the store: nothing, or one write to
    the field [name]. *)
Definition written `{Host} (name : string) (o : option (value float64 Time Image))
    (s : gmap string (value float64 Time Image)) : gmap string (value float64 Time Image) :=
  match o with
  | Some x => <[name := x]> s
  | None => s
  end.

(** The type a field is decoded at: the pointed-to type for a pointer. *)
Definition effType (f : StructField) : rtype :=
  if decide (Kind_of (Type_ f) = Ptr) then Elem (Type_ f) else Type_ f.

(** The place the decoders of a field write to. *)
Definition effPlace (f : StructField) : Value :=
  if decide (Kind_of (Type_ f) = Ptr)
  then {| at_ := Pointee (Name f); Type_of := Elem (Type_ f) |}
  else {| at_ := Field (Name f); Type_of := Type_ f |}.

(** A byte that is neither of the standard alphabet, nor the padding
    character, nor a line break. *)
Definition foreign (c : ascii) : Prop :=
  base64.decodeMap c = None ∧ c ≠ base64.padChar ∧ base64.isNewline c = false.

(** [strings.Join(elems, sep)], to write annotations down. *)
Fixpoint Join (elems : list string) (sep : string) : string :=
  match elems with
  | [] => EmptyString
  | x :: rest =>
      match rest with
      | [] => x
      | _ => x +:+ sep +:+ Join rest sep
      end
  end.

Definition comma_free (s : string) : Prop := ","%char ∉ list_ascii_of_string s.

(** The field [f] declared with the type [t] instead of its own. *)
Definition retyped (f : StructField) (t : rtype) : StructField :=
  {| Name := Name f; Type_ := t; Tag := Tag f |}.

(** [Secret string `form:"-,required"`] and a request with a value under
    [-] and under [secret]. *)
Definition secretField : StructField := field "Secret" (TBasic String_) "-,required".

Definition secretRequest : http.Request :=
  formRequest urlencoded [("-", ["x"]); ("secret", ["y"])]%string None.

(** A request with both a form value and a file part under [headshot]. *)
Definition headshotTwice : http.Request :=
  formRequest "multipart/form-data; boundary=x" [("headshot", ["QUJDRA=="])]%string
    (Some [("headshot"%string, [upload "QUJDRA=="])]).

(** [Photo image.Image `form:"photo,base64"`], a request with a form
    value under [photo], and one with a file part. *)
Definition photoField : StructField := field "Photo" TImage "photo,base64".

Definition photoValue : http.Request :=
  formRequest urlencoded [("photo", ["abc"])]%string None.

Definition photoUpload : http.Request :=
  formRequest "multipart/form-data; boundary=x" []
    (Some [("photo"%string, [upload "QUJDRA=="])]).

(** [Title string `form:"title,required"`] and a file part under [title]. *)
Definition titleField : StructField := field "Title" (TBasic String_) "title,required".

Definition titleUpload : http.Request :=
  formRequest "multipart/form-data; boundary=x" []
    (Some [("title"%string, [upload "ABCD"])]).

(** An upload with a character that is not of the alphabet. *)
Definition brokenUpload : http.Request :=
  formRequest "multipart/form-data; boundary=x" []
    (Some [("headshot"%string, [upload "QUJD!A=="])]).

(** [Level int8 `form:"level"`] *)
Definition levelField : StructField := field "Level" (TBasic Int8) "level".

(** [Odd int `form:"odd" base:"1"`] *)
Definition oddField : StructField :=
  {| Name := "Odd"; Type_ := TBasic Int; Tag := [("form", "odd"); ("base", "1")]%string |}.

(** A JSON request with [something=abc] in its query string, and
    [struct { Name string `form:"something"`; Age int }]. *)
Definition jsonQuery : http.Request :=
  formRequest "application/json" [("something", ["abc"])]%string None.

Definition overrideFields : list StructField :=
  [field "Name" (TBasic String_) "something";
   {| Name := "Age"; Type_ := TBasic Int; Tag := [("json", "age")]%string |}].

Definition overrideDecoded : gmap string tvalue :=
  list_to_map [("Name", VString "rick"); ("Age", VInt 39)]%string.

(** A request with [nick=bob]. *)
Definition nickBob : http.Request := formRequest urlencoded [("nick", ["bob"])]%string None.

(** The first error in a list of results. *)
Definition first_error (results : list (option error)) : option error :=
  head (omap id results).

(** ** Vocabulary and inputs: value sources, scalars as text *)

(** The file parts the parsed request holds under [tag]. *)
Definition fileParts (r : http.Request) (tag : string) : list multipart.FileHeader :=
  match http.MultipartForm r with
  | Some form => default [] (multipart.File form !! tag)
  | None => []
  end.

(** The sentence "a key with more than one raw value in the value
    sources of the request, its form values and its file parts, makes
    the step of the field fail with the multi-value error". *)
Definition multi_source_rejected `{Host} (r : http.Request) (f : StructField)
    (s : gmap string (value float64 Time Image)) : Prop :=
  ∀ tag tagOptions,
    parseTag (Tag_Get (Tag f) "form") = (tag, tagOptions) →
    tag ≠ EmptyString → tag ≠ "-"%string →
    (1 < length (default [] (http.Form r !! tag)) + length (fileParts r tag))%nat →
    (bindField r f s).2 = Some (errors_New "goform: arrays not supported yet").

(** A multipart request with two file parts under [avatar]. *)
Definition avatarParts : http.Request :=
  formRequest "multipart/form-data; boundary=x" [("id", ["1"])]%string
    (Some [("avatar"%string, [upload "ABCD"; upload "EFGH"])]).

(** Modelled from the documentation of [strconv] and of the language:
    the text [FormatFloat(x, 'g', -1, bitSize)] of a float, of which the
    package says that it "uses the smallest number of digits necessary
    such that ParseFloat will return f exactly" (for [bitSize] 32, of a
    value that is a float32); [math.IsNaN]; and [==] on floats, under
    which a NaN is equal to nothing, itself included. *)
Class FloatText `{Host} := {
  FormatFloat : float64 → Z → string;
  IsNaN : float64 → bool;
  float_eq : float64 → float64 → bool;
  ParseFloat_FormatFloat x w :
    IsNaN x = false →
    w = 64%Z ∨ (w = 32%Z ∧ float32_of x = x) →
    ParseFloat (FormatFloat x w) w = (x, None);
  float_eq_refl x : IsNaN x = false → float_eq x x = true;
  float_eq_NaN x y : IsNaN x = true → float_eq x y = false ∧ float_eq y x = false;
}.

Section scalars.
Context `{FloatText}.

(** A value of one of the scalar kinds. *)
Inductive scalar :=
| SBool (b : bool)
| SInt (k : Kind) (i : Z)
| SUint (k : Kind) (u : Z)
| SFloat (k : Kind) (x : float64)
| SString (x : string).

Definition scalar_kind (v : scalar) : Kind :=
  match v with
  | SBool _ => Bool
  | SInt k _ | SUint k _ | SFloat k _ => k
  | SString _ => String_
  end.

(** The value is one of its kind: an integer within the range of its
    width, a float32 for the kind [Float32]. *)
Definition is_value (v : scalar) : Prop :=
  match v with
  | SBool _ | SString _ => True
  | SInt k i => isSigned k = true ∧ (- 2 ^ (bits k - 1) ≤ i ≤ 2 ^ (bits k - 1) - 1)%Z
  | SUint k u => isUnsigned k = true ∧ (0 ≤ u ≤ 2 ^ bits k - 1)%Z
  | SFloat k x => k = Float64 ∨ (k = Float32 ∧ float32_of x = x)
  end.

Definition not_NaN (v : scalar) : Prop :=
  match v with
  | SFloat _ x => IsNaN x = false
  | _ => True
  end.

(** What a field holds when it holds the scalar. *)
Definition scalar_value (v : scalar) : value float64 Time Image :=
  match v with
  | SBool b => VBool b
  | SInt _ i => VInt i
  | SUint _ u => VUint u
  | SFloat _ x => VFloat x
  | SString x => VString x
  end.

(** The canonical text of the scalar. *)
Definition render (v : scalar) : string :=
  match v with
  | SBool b => strconv.FormatBool b
  | SInt _ i => strconv.FormatInt i
  | SUint _ u => strconv.FormatUint u
  | SFloat Float32 x => FormatFloat x 32
  | SFloat _ x => FormatFloat x 64
  | SString x => x
  end.

(** [==] on the values of scalar fields. *)
Definition go_equal (v w : value float64 Time Image) : bool :=
  match v, w with
  | VBool a, VBool b => bool_decide (a = b)
  | VInt a, VInt b => bool_decide (a = b)
  | VUint a, VUint b => bool_decide (a = b)
  | VString a, VString b => bool_decide (a = b)
  | VFloat x, VFloat y => float_eq x y
  | _, _ => false
  end.

(** The sentence "rendering the value and decoding the text with the
    decoder of its kind, without a base annotation, succeeds and yields
    a value equal to the original". *)
Definition round_trips (v : scalar) : Prop :=
  ∀ valf f (s : gmap string (value float64 Time Image)),
    Kind_of (Type_of valf) = scalar_kind v →
    Tag_Lookup (Tag f) "base" = None →
    ∃ w,
      decodeFormValue valf (scalar_kind v) f (render v) s = (Set_ s valf w, None) ∧
      go_equal w (scalar_value v) = true.

End scalars.

(** The floats of [textHost], kept as their text: the text NaN is the NaN. *)
Definition textFloats : FloatText (H := textHost).
Proof.
  refine {| FormatFloat := λ (x : @float64 textHost) _, (x : string);
            IsNaN := λ (x : @float64 textHost), bool_decide ((x : string) = "NaN"%string);
            float_eq := λ (x y : @float64 textHost),
              negb (bool_decide ((x : string) = "NaN"%string))
              && bool_decide ((x : string) = (y : string)) |}.
  - intros x w _ _. reflexivity.
  - intros x Hx. rewrite Hx. apply bool_decide_eq_true_2. reflexivity.
  - intros x y Hx. rewrite Hx. split; [reflexivity|].
    apply bool_decide_eq_true_1 in Hx. apply andb_false_iff.
    destruct (decide ((y : string) = "NaN"%string)) as [Hy|Hy].
    + left. by rewrite bool_decide_eq_true_2.
    + right. apply bool_decide_eq_false_2. congruence.
Defined.

(** Sample scalars: the float64 NaN, a float32, the least int8. *)
Definition nanScalar : scalar (H := textHost) := SFloat (H := textHost) Float64 "NaN"%string.
Definition halfScalar : scalar (H := textHost) := SFloat (H := textHost) Float32 "1.5"%string.
Definition minInt8 : scalar (H := textHost) := SInt (H := textHost) Int8 (-128).

(** ** Examples *)

Example ParseInt_39 : strconv.ParseInt 64 "39" 10 0 = (39%Z, None).
Proof. reflexivity. Qed.

Example ParseInt_neg_128 : strconv.ParseInt 64 "-128" 10 8 = ((-128)%Z, None).
Proof. reflexivity. Qed.

Example ParseInt_128_range :
  strconv.ParseInt 64 "128" 10 8 = (127%Z, Some (strconv.rangeError "ParseInt" "128")).
Proof. reflexivity. Qed.

Example ParseInt_hex : strconv.ParseInt 64 "fF" 16 32 = (255%Z, None).
Proof. reflexivity. Qed.

Example ParseUint_max64 :
  strconv.ParseUint 64 "18446744073709551615" 10 64 = (strconv.maxUint64, None).
Proof. reflexivity. Qed.

Example ParseUint_over64 :
  strconv.ParseUint 64 "18446744073709551616" 10 64
  = (strconv.maxUint64, Some (strconv.rangeError "ParseUint" "18446744073709551616")).
Proof. reflexivity. Qed.

Example ParseInt_base0 : strconv.ParseInt 64 "-0x1_f" 0 64 = ((-31)%Z, None).
Proof. reflexivity. Qed.

Example Split_tag : strings.Split "headshot,base64" "," = ["headshot"; "base64"]%string.
Proof. reflexivity. Qed.

Example parseTag_headshot :
  parseTag "headshot,base64" = ("headshot"%string, {| base64 := true; required := false |}).
Proof. reflexivity. Qed.

Example Unmarshal_URLEncoded :
  Unmarshal (H := textHost)
    (formRequest urlencoded [("id", ["1"]); ("name", ["rick"]); ("age", ["39"])]%string None)
    (DPtr (H := textHost) bodyFields bodyZero)
  = (http.closeBody
       (formRequest urlencoded [("id", ["1"]); ("name", ["rick"]); ("age", ["39"])]%string None),
     DPtr (H := textHost) bodyFields
       (list_to_map [("ID", VInt 1); ("Age", VInt 39); ("Name", VString "rick")]%string),
     Returned None).
Proof. vm_compute. reflexivity. Qed.

Example FormatInt_neg : strconv.FormatInt (-1280) = "-1280"%string.
Proof. reflexivity. Qed.

(** ** Frame properties of the field loop *)

Create HintDb frame.

Section frame.
Context `{Host}.

Local Abbreviation store := (gmap string (value float64 Time Image)).

Lemma only_at_refl name s : only_at name s s.
Proof. by intros n _. Qed.

Lemma only_at_trans name s1 s2 s3 :
  only_at name s1 s2 → only_at name s2 s3 → only_at name s1 s3.
Proof. intros H12 H23 n Hn. by rewrite H23, H12. Qed.

Lemma Set_only_at s valf x : only_at (target valf) s (Set_ s valf x).
Proof.
  intros n Hn. unfold Set_, target in *.
  destruct (at_ valf); by rewrite lookup_insert_ne.
Qed.

Hint Resolve only_at_refl Set_only_at : frame.

Ltac frame_cases :=
  repeat (simpl in *; try case_match; simplify_eq; eauto with frame).

Lemma decodeFormValue_only_at valf kind f formValue s s' o :
  decodeFormValue valf kind f formValue s = (s', o) → only_at (target valf) s s'.
Proof.
  unfold decodeFormValue, decodeBool, decodeInt, decodeUint, decodeFloat, decodeStruct,
    SetBool, SetInt, SetUint, SetFloat, SetString, SetBytes.
  intros Hd. frame_cases.
Qed.

Lemma decodeMultipart_only_at r tag valf kind tagOptions s s' o :
  decodeMultipart r tag valf kind tagOptions s = (s', o) → only_at (target valf) s s'.
Proof.
  unfold decodeMultipart, decodeMultipartFile, ReadAll, SetBytes.
  intros Hd. frame_cases.
Qed.

Lemma bindField_only_at r f s s' o :
  bindField r f s = (s', o) → only_at (Name f) s s'.
Proof.
  unfold bindField. intros Hb.
  destruct (parseTag _) as [tag tagOptions].
  case_decide; [by simplify_eq; apply only_at_refl|].
  destruct (decide (Kind_of (Type_ f) = Ptr)) as [Hptr|Hptr].
  - eapply only_at_trans; [apply (Set_only_at s (FieldByName (Name f) (Type_ f)))|].
    case_decide; [by simplify_eq; apply only_at_refl|].
    destruct (default [] _) as [|formValue rest].
    + by apply decodeMultipart_only_at in Hb.
    + by apply decodeFormValue_only_at in Hb.
  - case_decide; [by simplify_eq; apply only_at_refl|].
    destruct (default [] _) as [|formValue rest].
    + by apply decodeMultipart_only_at in Hb.
    + by apply decodeFormValue_only_at in Hb.
Qed.

Lemma bindFields_frame r fields s n :
  n ∉ map Name fields → (bindFields r fields s).1 !! n = s !! n.
Proof.
  revert s. induction fields as [|f rest IH]; intros s Hn; [done|].
  simpl in *. apply not_elem_of_cons in Hn as [Hf Hrest].
  destruct (bindField r f s) as [s1 [err|]] eqn:Hb.
  - simpl. by eapply bindField_only_at.
  - rewrite IH by done. by eapply bindField_only_at.
Qed.

(** The loop stops at the first field whose step returns an error. *)
Lemma bindFields_app r pre post s :
  bindFields r (pre ++ post) s =
    match bindFields r pre s with
    | (s1, None) => bindFields r post s1
    | (s1, Some err) => (s1, Some err)
    end.
Proof.
  revert s. induction pre as [|f pre IH]; intros s; [done|].
  simpl. destruct (bindField r f s) as [s1 [err|]]; [done|]. apply IH.
Qed.

Lemma bindFields_failure r fields s s' err :
  bindFields r fields s = (s', Some err) →
  ∃ (i : nat) f s_i,
    fields !! i = Some f ∧
    bindFields r (take i fields) s = (s_i, None) ∧
    bindField r f s_i = (s', Some err).
Proof.
  revert s. induction fields as [|f rest IH]; intros s Hb; [done|].
  simpl in Hb. destruct (bindField r f s) as [s1 [e|]] eqn:Hf.
  - simplify_eq. by exists 0%nat, f, s.
  - destruct (IH _ Hb) as (i & g & s_i & Hi & Hpre & Hg).
    exists (S i), g, s_i. simpl. by rewrite Hf.
Qed.

End frame.

Section loop.
Context `{Host}.

Local Abbreviation store := (gmap string (value float64 Time Image)).

Lemma distinct_names (fields : list StructField) (i j : nat) f g :
  NoDup (map Name fields) → fields !! i = Some f → fields !! j = Some g →
  i ≠ j → Name f ≠ Name g.
Proof.
  intros Hnd Hi Hj Hij Heq. apply Hij.
  eapply NoDup_lookup; [exact Hnd| |].
  - by rewrite list_lookup_fmap, Hi.
  - by rewrite list_lookup_fmap, Hj, Heq.
Qed.

Lemma name_not_before (fields : list StructField) (i j : nat) g :
  NoDup (map Name fields) → fields !! j = Some g → (i ≤ j)%nat →
  Name g ∉ map Name (take i fields).
Proof.
  intros Hnd Hj Hij Hin.
  apply list_elem_of_fmap in Hin as (h & Hname & Hh).
  apply list_elem_of_lookup in Hh as [k Hk].
  apply lookup_take_Some in Hk as [Hk Hlt].
  by apply (distinct_names fields k j h g Hnd Hk Hj); [lia|].
Qed.

Lemma name_not_after (fields : list StructField) (j : nat) g :
  NoDup (map Name fields) → fields !! j = Some g →
  Name g ∉ map Name (drop (S j) fields).
Proof.
  intros Hnd Hj Hin.
  apply list_elem_of_fmap in Hin as (h & Hname & Hh).
  apply list_elem_of_lookup in Hh as [k Hk].
  rewrite lookup_drop in Hk.
  by apply (distinct_names fields (S j + k) j h g Hnd Hk Hj); [lia|].
Qed.

(** C5.  When the loop of [Unmarshal] over the declared fields (with
    distinct names, as in every Go struct) returns an error, it does so
    while processing one field, at some index [i]: the fields before [i]
    were processed without error, the step of field [i] returned the
    error, every field after [i] holds the value it had before the loop,
    and every field before [i] holds the value it had when its own step
    was over; nothing is rolled back. *)
Theorem bind_no_rollback r (fields : list StructField) (s s' : store) err :
  NoDup (map Name fields) →
  bindFields r fields s = (s', Some err) →
  ∃ (i : nat) f s_i,
    fields !! i = Some f ∧
    bindFields r (take i fields) s = (s_i, None) ∧
    bindField r f s_i = (s', Some err) ∧
    (∀ (j : nat) g, (i < j)%nat → fields !! j = Some g → s' !! Name g = s !! Name g) ∧
    (∀ (j : nat) g, (j < i)%nat → fields !! j = Some g →
       s' !! Name g = (bindFields r (take (S j) fields) s).1 !! Name g).
Proof.
  intros Hnd Hb.
  destruct (bindFields_failure _ _ _ _ _ Hb) as (i & f & s_i & Hi & Hpre & Hf).
  exists i, f, s_i. split_and!; try done.
  - intros j g Hij Hj.
    rewrite (bindField_only_at _ _ _ _ _ Hf)
      by (apply (distinct_names fields j i); [done..|lia]).
    replace s_i with (bindFields r (take i fields) s).1 by by rewrite Hpre.
    apply bindFields_frame, (name_not_before fields i j); [done..|lia].
  - intros j g Hji Hj.
    rewrite (bindField_only_at _ _ _ _ _ Hf)
      by (apply (distinct_names fields j i); [done..|lia]).
    assert (take i fields = take (S j) fields ++ take (i - S j) (drop (S j) fields)) as Hsplit.
    { rewrite take_take_drop. f_equal. lia. }
    rewrite Hsplit, bindFields_app in Hpre.
    destruct (bindFields r (take (S j) fields) s) as [s1 [e|]]; [done|].
    replace s_i with (bindFields r (take (i - S j) (drop (S j) fields)) s1).1
      by by rewrite Hpre.
    apply bindFields_frame. intros Hin.
    apply (name_not_after fields j g Hnd Hj).
    apply list_elem_of_fmap in Hin as (h & Hname & Hh).
    apply list_elem_of_fmap. exists h. split; [done|].
    by eapply subseteq_take.
Qed.

End loop.

Lemma bind_no_rollback_witness :
  let s' : gmap string tvalue :=
    list_to_map [("ID", VInt 1); ("Age", VInt 0); ("Name", VString EmptyString)]%string in
  let err := NumError "ParseInt" "x" ErrSyntax in
  NoDup (map Name bodyFields) ∧
  bindFields (H := textHost) badAge bodyFields bodyZero = (s', Some err) ∧
  ∃ (i : nat) f s_i,
    bodyFields !! i = Some f ∧
    bindFields (H := textHost) badAge (take i bodyFields) bodyZero = (s_i, None) ∧
    bindField (H := textHost) badAge f s_i = (s', Some err) ∧
    (∀ (j : nat) g, (i < j)%nat → bodyFields !! j = Some g →
       s' !! Name g = bodyZero !! Name g) ∧
    (∀ (j : nat) g, (j < i)%nat → bodyFields !! j = Some g →
       s' !! Name g
       = (bindFields (H := textHost) badAge (take (S j) bodyFields) bodyZero).1 !! Name g).
Proof.
  intros s' err.
  assert (NoDup (map Name bodyFields)) as Hnd.
  { apply (bool_decide_unpack _). vm_compute. reflexivity. }
  assert (bindFields (H := textHost) badAge bodyFields bodyZero = (s', Some err)) as Hb.
  { vm_compute. reflexivity. }
  split; [exact Hnd|]. split; [exact Hb|].
  exact (bind_no_rollback (H := textHost) badAge bodyFields bodyZero s' err Hnd Hb).
Defined.

Section multi_value.
Context `{Host}.

Local Abbreviation store := (gmap string (value float64 Time Image)).

Lemma bindField_multi_value r f (s : store) tag tagOptions :
  parseTag (Tag_Get (Tag f) "form") = (tag, tagOptions) →
  tag ≠ EmptyString → tag ≠ "-"%string →
  (1 < length (default [] (http.Form r !! tag)))%nat →
  bindField r f s = (allocate f s, Some (errors_New "goform: arrays not supported yet")).
Proof.
  intros Htag Hne1 Hne2 Hlen. unfold bindField, allocate. rewrite Htag.
  rewrite decide_False by (intros [?|?]; done).
  destruct (decide (Kind_of (Type_ f) = Ptr)); by rewrite decide_True.
Qed.

(** C3, counterexample.  [Avatar []byte `form:"avatar"`] has no form
    value and two file parts under its key: the step binds the first
    part and returns no error. *)
Lemma multi_source_rejected_counterexample :
  ¬ multi_source_rejected (H := textHost) avatarParts avatarField {[ "Avatar"%string := VNil ]}.
Proof.
  intros Hrej.
  assert ((bindField (H := textHost) avatarParts avatarField {[ "Avatar"%string := VNil ]}).2
          = None) as Hbound by (vm_compute; reflexivity).
  rewrite (Hrej "avatar"%string {| base64 := false; required := false |}) in Hbound.
  - discriminate Hbound.
  - reflexivity.
  - discriminate.
  - discriminate.
  - vm_compute. lia.
Qed.

(** C3, amended.  For a declared field whose tag is a key other than the
    empty string and [-]: when the key has more than one raw form value,
    the bind fails: the loop over any field list that contains the field
    returns an error, and when the fields before it are processed
    without error the loop returns "goform: arrays not supported yet" on
    reaching it, at once: the store returned is the one the earlier
    fields left (with the pointer of this field allocated, if it is
    one), whatever fields follow, and every later field keeps the value
    it had when the bind began.  More than one file part under the key
    is not rejected: when the key has no form value, the step is the
    decoding of the first part alone, however many parts follow it. *)
Theorem multi_value_sources r pre f post (s : store) tag tagOptions :
  parseTag (Tag_Get (Tag f) "form") = (tag, tagOptions) →
  tag ≠ EmptyString → tag ≠ "-"%string →
  ((1 < length (default [] (http.Form r !! tag)))%nat →
     is_Some (bindFields r (pre ++ f :: post) s).2 ∧
     ∀ s1, bindFields r pre s = (s1, None) →
       bindFields r (pre ++ f :: post) s
         = (allocate f s1, Some (errors_New "goform: arrays not supported yet")) ∧
       ∀ g, g ∈ post → Name g ∉ map Name (pre ++ [f]) →
         (bindFields r (pre ++ f :: post) s).1 !! Name g = s !! Name g) ∧
  (default [] (http.Form r !! tag) = [] →
     ∀ hdr rest, fileParts r tag = hdr :: rest →
       bindField r f s
       = decodeMultipartFile (effPlace f) (Kind_of (effType f)) tagOptions hdr (allocate f s)).
Proof.
  intros Htag Hne1 Hne2. split.
  - intros Hlen.
    pose proof (λ s0, bindField_multi_value r f s0 tag tagOptions Htag Hne1 Hne2 Hlen) as Hf.
    split.
    + rewrite bindFields_app. destruct (bindFields r pre s) as [s1 [e|]]; [by eexists|].
      simpl. rewrite Hf. by eexists.
    + intros s1 Hpre.
      assert (bindFields r (pre ++ f :: post) s
              = (allocate f s1, Some (errors_New "goform: arrays not supported yet"))) as Hall.
      { rewrite bindFields_app, Hpre. simpl. by rewrite Hf. }
      split; [exact Hall|].
      intros g Hg Hname. rewrite Hall. simpl.
      rewrite fmap_app in Hname. apply not_elem_of_app in Hname as [Hpre_g Hf_g].
      rewrite <-(bindFields_frame r pre s (Name g) Hpre_g), Hpre. simpl.
      unfold allocate. case_decide; [|done].
      apply lookup_insert_ne. intros Heq. apply Hf_g. simpl. rewrite Heq. set_solver.
  - intros Hform hdr rest Hparts. unfold fileParts in Hparts.
    destruct (http.MultipartForm r) as [form|] eqn:Hmf; [|done].
    unfold bindField, allocate, effPlace, effType.
    rewrite Htag. rewrite decide_False by (intros [?|?]; done).
    destruct (decide (Kind_of (Type_ f) = Ptr)); rewrite Hform;
      (rewrite decide_False by (simpl; lia)); unfold decodeMultipart;
      by rewrite Hmf, Hparts.
Qed.

End multi_value.

Lemma multi_value_sources_witness :
  let pre := take 2 bodyFields in
  let f := field "Name" (TBasic String_) "name" in
  let post := [field "Nick" (TBasic String_) "nick"] in
  let s1 : gmap string tvalue :=
    list_to_map [("ID", VInt 1); ("Age", VInt 39); ("Name", VString EmptyString)]%string in
  (parseTag (Tag_Get (Tag f) "form") = ("name"%string, {| base64 := false; required := false |}) ∧
   bindFields (H := textHost) twoNames pre bodyZero = (s1, None) ∧
   is_Some (bindFields (H := textHost) twoNames (pre ++ f :: post) bodyZero).2 ∧
   bindFields (H := textHost) twoNames (pre ++ f :: post) bodyZero
     = (allocate (H := textHost) f s1, Some (errors_New "goform: arrays not supported yet")) ∧
   ∀ g, g ∈ post → Name g ∉ map Name (pre ++ [f]) →
     (bindFields (H := textHost) twoNames (pre ++ f :: post) bodyZero).1 !! Name g
     = bodyZero !! Name g) ∧
  (fileParts avatarParts "avatar" = [upload "ABCD"; upload "EFGH"] ∧
   bindField (H := textHost) avatarParts avatarField {[ "Avatar"%string := VNil ]}
   = (<["Avatar"%string := VBytes (list_ascii_of_string "ABCD")]>
        {[ "Avatar"%string := VNil ]}, None)).
Proof.
  intros pre f post s1. split.
  - assert (bindFields (H := textHost) twoNames pre bodyZero = (s1, None)) as Hpre.
    { vm_compute. reflexivity. }
    destruct (multi_value_sources (H := textHost) twoNames pre f post bodyZero
                "name" {| base64 := false; required := false |}) as [Hmany _];
      [reflexivity | discriminate | discriminate |].
    destruct Hmany as [Hfail Hall]; [vm_compute; lia|].
    destruct (Hall s1 Hpre) as [Heq Hlater]. by split_and!.
  - split; [reflexivity|].
    destruct (multi_value_sources (H := textHost) avatarParts [] avatarField []
                {[ "Avatar"%string := VNil ]}
                "avatar" {| base64 := false; required := false |}) as [_ Hparts];
      [reflexivity | discriminate | discriminate |].
    rewrite (Hparts eq_refl (upload "ABCD") [upload "EFGH"] eq_refl). reflexivity.
Defined.

(** ** Pointer fields and absent values *)

(** C1, counterexample.  [Nick] is nil, the request has neither a value
    nor a file under [nick], the field is not required, and yet the step
    of the loop leaves [Nick] pointing to an empty string. *)
Lemma allocated_lazily_counterexample :
  ¬ allocated_lazily (H := textHost) onlyID nickField {[ "Nick"%string := VNil ]}.
Proof.
  intros Hlazy.
  specialize (Hlazy (TBasic String_) "nick"%string {| base64 := false; required := false |}).
  vm_compute in Hlazy.
  specialize (Hlazy eq_refl eq_refl). 
  assert (Some (VPtr (VString EmptyString)) = Some (VNil : tvalue)) as Habs.
  { apply Hlazy; try reflexivity; discriminate. }
  discriminate Habs.
Qed.

(** C4, counterexample.  [Score] is a nil pointer, its zero value; the
    request has no value and no file under [score] and the field is not
    required; after the step [Score] is not nil any more.  And [Avatar],
    a nil byte slice that is not required and has no form value either,
    is assigned the content of the file part under its key. *)
Lemma optional_left_zero_counterexample :
  ¬ optional_left_zero (H := textHost) noFiles scoreField {[ "Score"%string := VNil ]} ∧
  ¬ optional_left_zero (H := textHost) avatarUpload avatarField {[ "Avatar"%string := VNil ]}.
Proof.
  split; intros Hzero.
  - specialize (Hzero "score"%string {| base64 := false; required := false |}).
    vm_compute in Hzero.
    destruct Hzero as [Habs _]; try reflexivity; try discriminate.
  - specialize (Hzero "avatar"%string {| base64 := false; required := false |}).
    vm_compute in Hzero.
    destruct Hzero as [Habs _]; try reflexivity; try discriminate.
Qed.

Section absent.
Context `{Host}.

Local Abbreviation store := (gmap string (value float64 Time Image)).

Lemma hasFile_false r tag :
  hasFile r tag = false →
  ∀ valf kind tagOptions (s : store),
    decodeMultipart r tag valf kind tagOptions s
    = (s, if required tagOptions then Some (missingRequired tag) else None).
Proof.
  unfold hasFile, decodeMultipart. intros Hfile valf kind tagOptions s.
  destruct (http.MultipartForm r) as [form|]; [|by destruct (required tagOptions)].
  apply bool_decide_eq_false in Hfile.
  destruct (default [] (multipart.File form !! tag)); [|by destruct Hfile].
  by destruct (required tagOptions).
Qed.

(** What the step of the loop does to a field whose key has no form
    value and no file part. *)
Lemma bindField_absent r f (s : store) tag tagOptions :
  parseTag (Tag_Get (Tag f) "form") = (tag, tagOptions) →
  tag ≠ EmptyString → tag ≠ "-"%string →
  default [] (http.Form r !! tag) = [] →
  hasFile r tag = false →
  bindField r f s
  = (allocate f s, if required tagOptions then Some (missingRequired tag) else None).
Proof.
  intros Htag Hne1 Hne2 Hform Hfile. unfold bindField, allocate. rewrite Htag.
  rewrite decide_False by (intros [?|?]; done).
  destruct (decide (Kind_of (Type_ f) = Ptr)); rewrite Hform;
    (case_decide; [simpl in *; lia|]); by apply hasFile_false.
Qed.

Lemma Set_points name t (s : store) x :
  points name (Set_ s {| at_ := Pointee name; Type_of := t |} x).
Proof. exists x. unfold Set_. simpl. apply lookup_insert_eq. Qed.

(** Writing through the pointer of a field keeps the field a pointer. *)
Hint Resolve Set_points : frame.

Ltac points_cases :=
  repeat (simpl in *; try case_match; simplify_eq; eauto with frame).

Lemma decodeFormValue_points name t kind f formValue (s s' : store) o :
  points name s →
  decodeFormValue {| at_ := Pointee name; Type_of := t |} kind f formValue s = (s', o) →
  points name s'.
Proof.
  unfold decodeFormValue, decodeBool, decodeInt, decodeUint, decodeFloat, decodeStruct,
    SetBool, SetInt, SetUint, SetFloat, SetString, SetBytes.
  intros Hp Hd. points_cases.
Qed.

Lemma decodeMultipart_points r tag name t kind tagOptions (s s' : store) o :
  points name s →
  decodeMultipart r tag {| at_ := Pointee name; Type_of := t |} kind tagOptions s = (s', o) →
  points name s'.
Proof.
  unfold decodeMultipart, decodeMultipartFile, ReadAll, SetBytes.
  intros Hp Hd. points_cases.
Qed.

(** C1, amended.  A pointer field with a tag other than the empty string
    and [-] is allocated as soon as the loop reaches it, before the
    request is consulted: whatever the request holds, and whether or not
    the step then fails, the field is a non-nil pointer afterwards; when
    the request holds neither a form value nor a file part under its
    key, the field is left pointing to the zero value of the pointed-to
    type (it is not left nil). *)
Theorem pointer_allocated_eagerly r f (s : store) elem tag tagOptions :
  Type_ f = TPtr elem →
  parseTag (Tag_Get (Tag f) "form") = (tag, tagOptions) →
  tag ≠ EmptyString → tag ≠ "-"%string →
  points (Name f) (bindField r f s).1 ∧
  (default [] (http.Form r !! tag) = [] → hasFile r tag = false →
   (bindField r f s).1 = <[Name f := VPtr (zero elem)]> s).
Proof.
  intros Hty Htag Hne1 Hne2. split.
  - unfold bindField. rewrite Htag, Hty. simpl.
    rewrite decide_False by (intros [?|?]; done).
    assert (points (Name f) (<[Name f := VPtr (zero elem)]> s)) as Hp.
    { eexists. apply lookup_insert_eq. }
    unfold Indirect, FieldByName, Set_. simpl.
    case_decide; [done|].
    destruct (default [] (http.Form r !! tag)) as [|formValue rest].
    + destruct (decodeMultipart _ _ _ _ _ _) as [s' o] eqn:Hd.
      by eapply decodeMultipart_points.
    + destruct (decodeFormValue _ _ _ _ _) as [s' o] eqn:Hd.
      by eapply decodeFormValue_points.
  - intros Hform Hfile.
    rewrite (bindField_absent r f s tag tagOptions) by done.
    unfold allocate. by rewrite Hty.
Qed.

(** C4, amended.  For a declared field with a tag other than the empty
    string and [-] whose key has no form value and no file part: if the
    field is required the step fails with "goform: missing required
    field [key]"; if it is not, the step returns no error and the loop
    goes on with the next field; a field that is not a pointer is left
    as it was (at its zero value if it was there), a pointer field is
    left pointing to a new zero value. *)
Theorem absent_value r f (s : store) tag tagOptions :
  parseTag (Tag_Get (Tag f) "form") = (tag, tagOptions) →
  tag ≠ EmptyString → tag ≠ "-"%string →
  default [] (http.Form r !! tag) = [] →
  hasFile r tag = false →
  (required tagOptions = true →
     ∀ rest, bindFields r (f :: rest) s = (allocate f s, Some (missingRequired tag))) ∧
  (required tagOptions = false →
     (∀ rest, bindFields r (f :: rest) s = bindFields r rest (allocate f s)) ∧
     (Kind_of (Type_ f) ≠ Ptr → (bindField r f s).1 = s) ∧
     (∀ elem, Type_ f = TPtr elem → (bindField r f s).1 = <[Name f := VPtr (zero elem)]> s)).
Proof.
  intros Htag Hne1 Hne2 Hform Hfile.
  pose proof (bindField_absent r f s tag tagOptions Htag Hne1 Hne2 Hform Hfile) as Hb.
  split; intros Hreq; rewrite Hreq in Hb.
  - intros rest. simpl. by rewrite Hb.
  - split_and!.
    + intros rest. simpl. by rewrite Hb.
    + intros Hk. rewrite Hb. unfold allocate. simpl. by rewrite decide_False.
    + intros elem Hty. rewrite Hb. unfold allocate. simpl. by rewrite Hty.
Qed.

End absent.

Lemma pointer_allocated_eagerly_witness :
  Type_ nickField = TPtr (TBasic String_) ∧
  points (H := textHost) "Nick" (bindField (H := textHost) onlyID nickField {[ "Nick"%string := VNil ]}).1 ∧
  (bindField (H := textHost) onlyID nickField {[ "Nick"%string := VNil ]}).1
  = <["Nick"%string := VPtr (VString EmptyString)]> {[ "Nick"%string := VNil ]}.
Proof.
  split; [reflexivity|].
  destruct (pointer_allocated_eagerly (H := textHost) onlyID nickField
              {[ "Nick"%string := VNil ]} (TBasic String_) "nick"
              {| base64 := false; required := false |}) as [Hp Hzero].
  - reflexivity.
  - reflexivity.
  - discriminate.
  - discriminate.
  - split; [exact Hp|]. apply Hzero; reflexivity.
Defined.

Lemma absent_value_witness :
  parseTag (Tag_Get (Tag somethingField) "form")
  = ("something"%string, {| base64 := false; required := true |}) ∧
  default [] (http.Form noFiles !! "something"%string) = [] ∧
  hasFile noFiles "something" = false ∧
  bindFields (H := textHost) noFiles [somethingField; scoreField]
    {[ "Something"%string := VString EmptyString ]}
  = ({[ "Something"%string := VString EmptyString ]},
     Some (errorString "goform: missing required field [something]")).
Proof.
  do 3 (split; [reflexivity|]).
  destruct (absent_value (H := textHost) noFiles somethingField
              {[ "Something"%string := VString EmptyString ]} "something"
              {| base64 := false; required := true |}) as [Hreq _].
  - reflexivity.
  - discriminate.
  - discriminate.
  - reflexivity.
  - reflexivity.
  - exact (Hreq eq_refl [scoreField]).
Defined.

(** ** Unsupported kinds *)

(** C2, at the failing input.  [Tags] is a slice of ints, a kind no
    decoder supports, and its key has exactly one form value: the bind
    returns no error and leaves the field as it was. *)
Theorem slice_not_rejected :
  Unmarshal (H := textHost) oneTag (DPtr (H := textHost) [tagsField] {[ "Tags"%string := VNil ]})
  = (http.closeBody oneTag,
     DPtr (H := textHost) [tagsField] {[ "Tags"%string := VNil ]},
     Returned None).
Proof. vm_compute. reflexivity. Qed.

Section unsupported.
Context `{Host}.

Local Abbreviation store := (gmap string (value float64 Time Image)).

(** Every kind without a case of its own, and every struct other than
    [time.Time], is rejected; a slice other than [[]byte] is not. *)
Lemma decodeFormValue_unsupported valf kind f formValue (s : store) :
  Kind_of (Type_of valf) = kind →
  (handled kind = false ∨ (kind = Struct ∧ Type_of valf ≠ TTime) →
     decodeFormValue valf kind f formValue s
     = (s, Some (errors_New "goform: invalid destination type"))) ∧
  (kind = Slice → Type_of valf ≠ TBytes →
     decodeFormValue valf kind f formValue s = (s, None)).
Proof.
  intros Hk. split.
  - intros [Hh|[-> Ht]].
    + by destruct kind.
    + simpl. unfold decodeStruct. by rewrite decide_False.
  - intros -> Ht. simpl. by rewrite decide_False.
Qed.

End unsupported.

(** ** The checks before the loop *)

Section prologue.
Context `{Host}.

(** C9.  A request whose Content-Type header is absent (no entry, or an
    entry without values) or empty makes [Unmarshal] return the error of
    the media type parser, "mime: no media type", at once: the
    destination is returned as it was given, and so is the request, with
    its body not decoded, its form not parsed and nothing bound. *)
Theorem no_content_type r v :
  http.Header r !! "Content-Type"%string = None
  ∨ http.Header r !! "Content-Type"%string = Some []
  ∨ (∃ rest, http.Header r !! "Content-Type"%string = Some (EmptyString :: rest)) →
  Unmarshal r v = (r, v, Returned (Some (errors_New "mime: no media type"))).
Proof.
  intros Hct.
  assert (http.Header_Get (http.Header r) "Content-Type" = EmptyString) as Hget.
  { unfold http.Header_Get. destruct Hct as [->|[->|[rest ->]]]; reflexivity. }
  unfold Unmarshal. rewrite Hget. reflexivity.
Qed.

(** C10.  When the media type of the request parses and the destination
    is a value that is not a pointer: for a media type other than
    application/json, [Unmarshal] returns "goform: v must be a pointer",
    with the form of the request not parsed and nothing bound; for
    application/json the body is handed to the JSON decoder first, which
    fails on such a destination, and [Unmarshal] returns the decoder's
    error (that of reading the JSON value, or else its
    InvalidUnmarshalError). *)
Theorem non_pointer_destination r t mediaType :
  Kind_of t ≠ Ptr →
  mime_ParseMediaType mime_params (http.Header_Get (http.Header r) "Content-Type")
  = (mediaType, None) →
  (mediaType ≠ "application/json"%string →
     Unmarshal r (DValue t)
     = (http.closeBody r, DValue t,
        Returned (Some (errors_New "goform: v must be a pointer")))) ∧
  (mediaType = "application/json"%string →
     ∃ err,
       json_Decode (http.Body r) (DValue t) = (DValue t, Some err) ∧
       err = default (InvalidUnmarshalError (Some t)) (json_readValue (http.Body r)) ∧
       Unmarshal r (DValue t) = (http.closeBody r, DValue t, Returned (Some err))).
Proof.
  intros Hk Hmt. unfold Unmarshal. rewrite Hmt. split; intros Hjson.
  - rewrite decide_False by done. by rewrite decide_False.
  - rewrite decide_True by done. unfold json_Decode.
    destruct (json_readValue (http.Body r)) as [e|]; simpl.
    + by exists e.
    + rewrite decide_False by done. by eexists.
Qed.

End prologue.

Lemma no_content_type_witness :
  http.Header plainRequest !! "Content-Type"%string = None ∧
  Unmarshal (H := textHost) plainRequest
    (DPtr (H := textHost) [field "ID" (TBasic Int) "id"] {[ "ID"%string := VInt 0 ]})
  = (plainRequest,
     DPtr (H := textHost) [field "ID" (TBasic Int) "id"] {[ "ID"%string := VInt 0 ]},
     Returned (Some (errors_New "mime: no media type"))).
Proof.
  split; [reflexivity|].
  apply (no_content_type (H := textHost)). left. reflexivity.
Defined.

Lemma non_pointer_destination_witness :
  Unmarshal (H := textHost) onlyID (DValue (H := textHost) (TBasic Struct))
  = (http.closeBody onlyID, DValue (H := textHost) (TBasic Struct),
     Returned (Some (errors_New "goform: v must be a pointer"))) ∧
  Unmarshal (H := textHost) jsonRequest (DValue (H := textHost) (TBasic Struct))
  = (http.closeBody jsonRequest, DValue (H := textHost) (TBasic Struct),
     Returned (Some (InvalidUnmarshalError (Some (TBasic Struct))))).
Proof.
  split.
  - apply (non_pointer_destination (H := textHost) onlyID (TBasic Struct) urlencoded).
    + discriminate.
    + reflexivity.
    + discriminate.
  - destruct (non_pointer_destination (H := textHost) jsonRequest (TBasic Struct)
                "application/json") as [_ Hjson].
    + discriminate.
    + reflexivity.
    + destruct (Hjson eq_refl) as (err & _ & -> & Hu). exact Hu.
Defined.

(** ** Facts about the base64 model *)

Module base64_facts.
Local Open Scope Z_scope.

Lemma code_range c : 0 ≤ code c < 256.
Proof.
  unfold code. pose proof (N_ascii_bounded c). lia.
Qed.

Lemma byte_of_code c : base64.byte_of (code c) = c.
Proof.
  unfold base64.byte_of. pose proof (code_range c).
  rewrite Z.mod_small by lia. unfold code. rewrite N2Z.id. apply ascii_N_embedding.
Qed.

Lemma byte_of_eq x c : x mod 256 = code c → base64.byte_of x = c.
Proof.
  intros Hx. rewrite <-(byte_of_code c). unfold base64.byte_of. rewrite Hx.
  pose proof (code_range c). by rewrite (Z.mod_small (code c)) by lia.
Qed.

Lemma decodeMap_encodeMap i : 0 ≤ i < 64 → base64.decodeMap (base64.encodeMap i) = Some i.
Proof.
  intros Hi.
  assert (Forall (λ n, base64.decodeMap (base64.encodeMap (Z.of_nat n)) = Some (Z.of_nat n))
            (seq 0 64)) as Hall.
  { apply (bool_decide_unpack _). vm_compute. reflexivity. }
  rewrite Forall_forall in Hall.
  specialize (Hall (Z.to_nat i)). rewrite Z2Nat.id in Hall by lia.
  apply Hall. apply elem_of_seq. lia.
Qed.

Lemma decodeMap_padChar : base64.decodeMap base64.padChar = None.
Proof. reflexivity. Qed.

Lemma lor_disjoint a b k :
  0 ≤ k → 0 ≤ b < 2 ^ k → a mod 2 ^ k = 0 → Z.lor a b = a + b.
Proof.
  intros Hk Hb Ha.
  assert (Z.land a b = 0) as Hland.
  { apply Z.bits_inj'. intros n Hn. rewrite Z.land_spec, Z.bits_0.
    destruct (Z.lt_ge_cases n k) as [Hlt|Hge].
    - rewrite <-(Z.mod_pow2_bits_low a k n) by lia. rewrite Ha, Z.bits_0. reflexivity.
    - destruct (Z.eq_dec b 0) as [->|Hb0]; [by rewrite Z.bits_0, andb_false_r|].
      rewrite (Z.bits_above_log2 b n), andb_false_r; [reflexivity|lia|].
      apply Z.log2_lt_pow2; [lia|].
      eapply Z.lt_le_trans; [apply Hb|]. apply Z.pow_le_mono_r; lia. }
  rewrite <-Z.lxor_lor by exact Hland. symmetry. apply Z.add_nocarry_lxor. exact Hland.
Qed.

Lemma quantum_val v1 v2 v3 v4 :
  0 ≤ v1 → 0 ≤ v2 < 64 → 0 ≤ v3 < 64 → 0 ≤ v4 < 64 →
  Z.lor (Z.lor (Z.lor (Z.shiftl v1 18) (Z.shiftl v2 12)) (Z.shiftl v3 6)) v4
  = v1 * 2 ^ 18 + v2 * 2 ^ 12 + v3 * 2 ^ 6 + v4.
Proof.
  intros H1 H2 H3 H4. rewrite !Z.shiftl_mul_pow2 by lia.
  rewrite (lor_disjoint (v1 * 2 ^ 18) (v2 * 2 ^ 12) 18); [|lia|lia|].
  2:{ apply Z.mod_mul. lia. }
  rewrite (lor_disjoint _ (v3 * 2 ^ 6) 12); [|lia|lia|].
  2:{ replace (v1 * 2 ^ 18 + v2 * 2 ^ 12) with ((v1 * 2 ^ 6 + v2) * 2 ^ 12) by lia.
      apply Z.mod_mul. lia. }
  rewrite (lor_disjoint _ v4 6); [lia|lia|lia|].
  replace (v1 * 2 ^ 18 + v2 * 2 ^ 12 + v3 * 2 ^ 6)
    with ((v1 * 2 ^ 12 + v2 * 2 ^ 6 + v3) * 2 ^ 6) by lia.
  apply Z.mod_mul. lia.
Qed.

Lemma quantum_bytes a b c :
  base64.quantum (code a / 4) (code a mod 4 * 16 + code b / 16)
    (code b mod 16 * 4 + code c / 64) (code c mod 64)
  = [a; b; c].
Proof.
  pose proof (code_range a). pose proof (code_range b). pose proof (code_range c).
  unfold base64.quantum.
  rewrite quantum_val by (Z.div_mod_to_equations; lia).
  replace (code a / 4 * 2 ^ 18 + (code a mod 4 * 16 + code b / 16) * 2 ^ 12
           + (code b mod 16 * 4 + code c / 64) * 2 ^ 6 + code c mod 64)
    with (code a * 2 ^ 16 + code b * 2 ^ 8 + code c)
    by (Z.div_mod_to_equations; lia).
  rewrite !Z.shiftr_div_pow2 by lia.

  repeat (apply (f_equal2 cons); [apply byte_of_eq; Z.div_mod_to_equations; lia|]).
  reflexivity.
Qed.

(** The quantum of a final group of two bytes, and of one byte. *)
Lemma quantum_bytes2 a b :
  take 2 (base64.quantum (code a / 4) (code a mod 4 * 16 + code b / 16) (code b mod 16 * 4) 0)
  = [a; b].
Proof.
  pose proof (code_range a). pose proof (code_range b).
  unfold base64.quantum.
  rewrite quantum_val by (Z.div_mod_to_equations; lia).
  replace (code a / 4 * 2 ^ 18 + (code a mod 4 * 16 + code b / 16) * 2 ^ 12
           + code b mod 16 * 4 * 2 ^ 6 + 0)
    with (code a * 2 ^ 16 + code b * 2 ^ 8)
    by (Z.div_mod_to_equations; lia).
  rewrite !Z.shiftr_div_pow2 by lia. simpl take.

  repeat (apply (f_equal2 cons); [apply byte_of_eq; Z.div_mod_to_equations; lia|]).
  reflexivity.
Qed.

Lemma quantum_bytes1 a :
  take 1 (base64.quantum (code a / 4) (code a mod 4 * 16) 0 0) = [a].
Proof.
  pose proof (code_range a).
  unfold base64.quantum.
  rewrite quantum_val by (Z.div_mod_to_equations; lia).
  replace (code a / 4 * 2 ^ 18 + code a mod 4 * 16 * 2 ^ 12 + 0 * 2 ^ 6 + 0)
    with (code a * 2 ^ 16)
    by (Z.div_mod_to_equations; lia).
  rewrite !Z.shiftr_div_pow2 by lia. simpl take.

  repeat (apply (f_equal2 cons); [apply byte_of_eq; Z.div_mod_to_equations; lia|]).
  reflexivity.
Qed.

Lemma decodeQuanta_Encode data : base64.decodeQuanta (base64.Encode data) = (data, None).
Proof.
  assert (∀ (n : nat) data, (length data ≤ n)%nat →
            base64.decodeQuanta (base64.Encode data) = (data, None)) as Hind.
  { clear data. induction n as [|n IH]; intros data Hlen.
    - destruct data; [reflexivity|simpl in Hlen; lia].
    - destruct data as [|a [|b [|c rest]]]; [reflexivity|..].
      + pose proof (code_range a). cbn [base64.Encode base64.decodeQuanta].
        rewrite !decodeMap_encodeMap by (Z.div_mod_to_equations; lia).
        rewrite decodeMap_padChar.
        change (Ascii.eqb base64.padChar base64.padChar) with true.
        cbn [andb]. by rewrite quantum_bytes1.
      + pose proof (code_range a). pose proof (code_range b).
        cbn [base64.Encode base64.decodeQuanta].
        rewrite !decodeMap_encodeMap by (Z.div_mod_to_equations; lia).
        rewrite decodeMap_padChar.
        change (Ascii.eqb base64.padChar base64.padChar) with true.
        cbv iota. by rewrite quantum_bytes2.
      + pose proof (code_range a). pose proof (code_range b). pose proof (code_range c).
        cbn [base64.Encode base64.decodeQuanta].
        rewrite !decodeMap_encodeMap by (Z.div_mod_to_equations; lia).
        rewrite IH by (simpl in Hlen; lia).
        by rewrite quantum_bytes. }
  by apply (Hind (length data)).
Qed.

Lemma encodeMap_not_newline i : base64.isNewline (base64.encodeMap i) = false.
Proof.
  unfold base64.encodeMap.
  destruct (nth_in_or_default (Z.to_nat i) (list_ascii_of_string base64.encodeStd) "A"%char)
    as [Hin| ->]; [|reflexivity].
  assert (Forall (λ c, base64.isNewline c = false) (list_ascii_of_string base64.encodeStd))
    as Hall by (apply (bool_decide_unpack _); vm_compute; reflexivity).
  rewrite Forall_forall in Hall. apply Hall. by apply list_elem_of_In.
Qed.

Lemma Encode_no_newline data :
  filter (λ c, base64.isNewline c = false) (base64.Encode data) = base64.Encode data.
Proof.
  assert (∀ (n : nat) data, (length data ≤ n)%nat →
            Forall (λ c, base64.isNewline c = false) (base64.Encode data)) as Hind.
  { clear data. induction n as [|n IH]; intros data Hlen.
    - destruct data; [constructor|simpl in Hlen; lia].
    - destruct data as [|a [|b [|c rest]]]; [constructor|..];
        cbn [base64.Encode]; repeat constructor; try apply encodeMap_not_newline.
      apply IH. simpl in Hlen. lia. }
  specialize (Hind (length data) data (le_n _)).
  induction Hind as [|c l Hc Hl IH]; [done|].
  rewrite filter_cons_True by done. by rewrite IH.
Qed.
End base64_facts.

(** ** Facts about the strconv model *)

Module strconv_facts.
Local Open Scope Z_scope.

Lemma digitLoop_inl base0 base cutoff maxVal cs n u n' u' :
  0 ≤ n ≤ maxVal →
  strconv.digitLoop base0 base cutoff maxVal cs n u = inl (n', u') →
  0 ≤ n' ≤ maxVal.
Proof.
  revert n u. induction cs as [|c cs IH]; intros n u Hn Hloop; simpl in Hloop.
  - by simplify_eq.
  - repeat case_match; simplify_eq; try (by eapply IH);
      (eapply IH; [|eassumption]);
      unfold strconv.uint64 in *; (split; [apply Z.mod_pos_bound; lia|]);
      match goal with
      | Hor : _ || _ = false |- _ => apply orb_false_elim in Hor as [_ Hle]
      end; lia.
Qed.

Lemma digitLoop_inr base0 base cutoff maxVal cs n u v e :
  strconv.digitLoop base0 base cutoff maxVal cs n u = inr (v, e) →
  (e = ErrSyntax ∧ v = 0) ∨ (e = ErrRange ∧ v = maxVal).
Proof.
  revert n u. induction cs as [|c cs IH]; intros n u Hloop; simpl in Hloop; [done|].
  repeat case_match; simplify_eq; eauto.
Qed.

Lemma maxVal_width IntSize bitSize :
  goWidth IntSize bitSize →
  strconv.uint64 (strconv.uint64 (2 ^ bitWidth IntSize bitSize) - 1)
  = 2 ^ bitWidth IntSize bitSize - 1.
Proof.
  unfold goWidth, bitWidth. intros [[-> | ->] [-> | [-> | [-> | [-> | ->]]]]]; reflexivity.
Qed.

Lemma ParseUint_result IntSize s base bitSize un err :
  goWidth IntSize bitSize →
  strconv.ParseUint IntSize s base bitSize = (un, err) →
  match err with
  | None => 0 ≤ un ≤ 2 ^ bitWidth IntSize bitSize - 1
  | Some (NumError _ _ ErrRange) => un = 2 ^ bitWidth IntSize bitSize - 1
  | Some _ => True
  end.
Proof.
  intros Hw Hp. pose proof (maxVal_width IntSize bitSize Hw) as Hmax.
  unfold strconv.ParseUint in Hp.
  case_decide; [by simplify_eq|].
  destruct (strconv.pickBase base (codes s)) as [[base' cs]|]; [|by simplify_eq].
  assert ((if bitSize =? 0 then Some IntSize
           else if (bitSize <? 0) || (bitSize >? 64) then None else Some bitSize)
          = Some (bitWidth IntSize bitSize)) as Hbits.
  { unfold bitWidth. destruct Hw as [_ [-> | [-> | [-> | [-> | ->]]]]]; reflexivity. }
  rewrite Hbits, Hmax in Hp.
  destruct (strconv.digitLoop _ _ _ _ _ _ _) as [[n u]|[v e]] eqn:Hloop.
  - apply digitLoop_inl in Hloop.
    + destruct (u && negb _) in Hp; simplify_eq; simpl; [done|lia].
    + destruct Hw as [[-> | ->] [-> | [-> | [-> | [-> | ->]]]]]; unfold bitWidth; simpl; lia.
  - apply digitLoop_inr in Hloop as [[-> ->]|[-> ->]]; by simplify_eq; simpl.
Qed.

Lemma int64_small x : - 2 ^ 63 ≤ x < 2 ^ 63 → strconv.int64 x = x.
Proof. intros Hx. unfold strconv.int64. rewrite Z.mod_small; lia. Qed.

Lemma int64_neg_neg x : 0 ≤ x ≤ 2 ^ 63 → strconv.int64 (- strconv.int64 x) = - x.
Proof.
  intros Hx. destruct (Z.eq_dec x (2 ^ 63)) as [->|Hne]; [reflexivity|].
  rewrite (int64_small x) by lia. apply int64_small. lia.
Qed.

Lemma width_range IntSize bitSize :
  goWidth IntSize bitSize → 8 ≤ bitWidth IntSize bitSize ≤ 64.
Proof.
  unfold goWidth, bitWidth. intros [[-> | ->] [-> | [-> | [-> | [-> | ->]]]]]; simpl; lia.
Qed.

(** The code of [ParseInt] after the call of [ParseUint]. *)
Lemma ParseInt_tail_range IntSize bitSize (neg : bool) (s0 : string) un err n :
  goWidth IntSize bitSize →
  match err with
  | None => 0 ≤ un ≤ 2 ^ bitWidth IntSize bitSize - 1
  | Some (NumError _ _ ErrRange) => un = 2 ^ bitWidth IntSize bitSize - 1
  | Some _ => True
  end →
  (let fatal :=
     match err with
     | None | Some (NumError _ _ ErrRange) => None
     | Some (NumError _ _ e) => Some (NumError "ParseInt" s0 e)
     | Some e => Some e
     end in
   match fatal with
   | Some err => (0, Some err)
   | None =>
       let bitSize := if bitSize =? 0 then IntSize else bitSize in
       let cutoff := strconv.uint64 (2 ^ (bitSize - 1)) in
       if negb neg && (un >=? cutoff)
       then (strconv.int64 (cutoff - 1), Some (strconv.rangeError "ParseInt" s0))
       else if neg && (un >? cutoff)
       then (strconv.int64 (- strconv.int64 cutoff), Some (strconv.rangeError "ParseInt" s0))
       else
         let n := strconv.int64 un in
         (if neg then strconv.int64 (- n) else n, None)
   end) = (n, None) →
  - 2 ^ (bitWidth IntSize bitSize - 1) ≤ n ≤ 2 ^ (bitWidth IntSize bitSize - 1) - 1.
Proof.
  intros Hw Hun. cbv zeta. fold (bitWidth IntSize bitSize).
  pose proof (width_range _ _ Hw) as Hw8.
  set (w := bitWidth IntSize bitSize) in *. clearbody w.
  assert (2 ^ 7 ≤ 2 ^ (w - 1) ≤ 2 ^ 63) as HC
    by (split; apply Z.pow_le_mono_r; lia).
  assert (2 ^ w = 2 * 2 ^ (w - 1)) as Hpow.
  { rewrite <-Z.pow_succ_r by lia. f_equal. lia. }
  rewrite Hpow in Hun.
  assert (strconv.uint64 (2 ^ (w - 1)) = 2 ^ (w - 1)) as ->
    by (apply Z.mod_small; lia).
  set (C := 2 ^ (w - 1)) in *. clearbody C. 
  assert (0 ≤ un ≤ 2 * C - 1 →
          (if negb neg && (un >=? C)
           then (strconv.int64 (C - 1), Some (strconv.rangeError "ParseInt" s0))
           else if neg && (un >? C)
           then (strconv.int64 (- strconv.int64 C), Some (strconv.rangeError "ParseInt" s0))
           else (if neg then strconv.int64 (- strconv.int64 un) else strconv.int64 un, None))
          = (n, None) → - C ≤ n ≤ C - 1) as Hfinish.
  { intros Hrange Hres. destruct neg; simpl in Hres.
    - destruct (un >? C) eqn:Hgt; [done|]. simplify_eq.
      rewrite int64_neg_neg by lia. lia.
    - destruct (un >=? C) eqn:Hge; [done|]. simplify_eq.
      rewrite int64_small by lia. lia. }
  destruct err as [[msg|fn num [| | |]| | | |]|]; simpl; try done;
    intros Hres; apply Hfinish; (done || lia).
Qed.

Lemma ParseInt_range IntSize s base bitSize n :
  goWidth IntSize bitSize →
  strconv.ParseInt IntSize s base bitSize = (n, None) →
  - 2 ^ (bitWidth IntSize bitSize - 1) ≤ n ≤ 2 ^ (bitWidth IntSize bitSize - 1) - 1.
Proof.
  intros Hw Hp. unfold strconv.ParseInt in Hp.
  destruct s as [|c0 rest]; [done|].
  destruct (Ascii.eqb c0 "+"); [|destruct (Ascii.eqb c0 "-")];
    (destruct (strconv.ParseUint IntSize _ base bitSize) as [un err] eqn:Hu;
     apply ParseUint_result in Hu; [|done]).
  - exact (ParseInt_tail_range IntSize bitSize false (String c0 rest) un err n Hw Hu Hp).
  - exact (ParseInt_tail_range IntSize bitSize true (String c0 rest) un err n Hw Hu Hp).
  - exact (ParseInt_tail_range IntSize bitSize false (String c0 rest) un err n Hw Hu Hp).
Qed.

End strconv_facts.

(** ** File parts into byte slices *)

Lemma Encode_decodes_to decoded : decodes_to (base64.Encode decoded) decoded.
Proof.
  unfold decodes_to.
  by rewrite base64_facts.Encode_no_newline, base64_facts.decodeQuanta_Encode.
Qed.

Section files.
Context `{Host}.

Local Abbreviation store := (gmap string (value float64 Time Image)).

(** C7.  For a field of type [[]byte] with a tag other than the empty
    string and [-], whose key has no form value and has a file part in
    the parsed multipart form (the first one counts), when the part
    opens and is read to its end without failure: without the base64
    option the field is assigned the content of the part, byte for byte;
    with the base64 option, when the content is valid base64 in the
    standard alphabet, in particular when it is the standard encoding of
    some bytes, the field is assigned the decoded bytes.  The step
    returns no error. *)
Theorem file_into_bytes r f (s : store) tag tagOptions form hdr rest rd :
  Type_ f = TBytes →
  parseTag (Tag_Get (Tag f) "form") = (tag, tagOptions) →
  tag ≠ EmptyString → tag ≠ "-"%string →
  default [] (http.Form r !! tag) = [] →
  http.MultipartForm r = Some form →
  multipart.File form !! tag = Some (hdr :: rest) →
  multipart.Open hdr = Ok rd →
  r_err rd = None →
  (base64 tagOptions = false →
     bindField r f s = (<[Name f := VBytes (r_data rd)]> s, None)) ∧
  (base64 tagOptions = true →
     (∀ decoded, decodes_to (r_data rd) decoded →
        bindField r f s = (<[Name f := VBytes decoded]> s, None)) ∧
     (∀ decoded, r_data rd = base64.Encode decoded →
        bindField r f s = (<[Name f := VBytes decoded]> s, None))).
Proof.
  intros Hty Htag Hne1 Hne2 Hform Hmf Hfile Hopen Herr.
  assert (bindField r f s
          = decodeMultipartFile (FieldByName (Name f) TBytes) Slice tagOptions hdr s) as Hb.
  { unfold bindField. rewrite Htag, Hty. simpl.
    rewrite decide_False by (intros [?|?]; done).
    rewrite Hform. rewrite decide_False by (simpl; lia).
    unfold decodeMultipart. by rewrite Hmf, Hfile. }
  rewrite Hb. unfold decodeMultipartFile. rewrite Hopen. simpl.
  assert (∀ decoded, decodes_to (r_data rd) decoded →
            base64.NewDecoder rd = {| r_data := decoded; r_err := None |}) as Hdec.
  { intros decoded Hd. unfold base64.NewDecoder. unfold decodes_to in Hd.
    by rewrite Hd, Herr. }
  split; intros Hb64; rewrite Hb64.
  - unfold ReadAll. by rewrite Herr.
  - split.
    + intros decoded Hd. by rewrite (Hdec decoded Hd).
    + intros decoded Henc. rewrite (Hdec decoded); [done|].
      rewrite Henc. apply Encode_decodes_to.
Qed.

End files.

Lemma file_into_bytes_witness :
  base64.Encode (list_ascii_of_string "ABCD") = list_ascii_of_string "QUJDRA==" ∧
  bindField (H := textHost) headshotUpload headshotField {[ "Headshot"%string := VNil ]}
  = (<["Headshot"%string := VBytes (list_ascii_of_string "ABCD")]>
       {[ "Headshot"%string := VNil ]}, None).
Proof.
  split; [reflexivity|].
  destruct (file_into_bytes (H := textHost) headshotUpload headshotField
              {[ "Headshot"%string := VNil ]} "headshot"
              {| base64 := true; required := false |}
              {| multipart.Value := ∅;
                 multipart.File := list_to_map [("headshot"%string, [upload "QUJDRA=="])] |}
              (upload "QUJDRA==") []
              {| r_data := list_ascii_of_string "QUJDRA=="; r_err := None |})
    as [_ Hb64];
    [reflexivity | reflexivity | discriminate | discriminate
    | reflexivity | reflexivity | reflexivity | reflexivity | reflexivity |].
  destruct (Hb64 eq_refl) as [_ Henc].
  apply (Henc (list_ascii_of_string "ABCD")). reflexivity.
Defined.

(** ** Integer fields *)

Section integers.
Context `{Host}.
Local Open Scope Z_scope.

Local Abbreviation store := (gmap string (value float64 Time Image)).

Lemma IntSize_cases : IntSize = 32 ∨ IntSize = 64.
Proof. unfold IntSize. destruct word; auto. Qed.

Lemma int_small x : - 2 ^ 31 ≤ x ≤ 2 ^ 31 - 1 → int x = x.
Proof.
  intros Hx. unfold int.
  destruct IntSize_cases as [-> | ->]; simpl; rewrite Z.mod_small; lia.
Qed.

Lemma wrap_signed_small w x :
  1 ≤ w → - 2 ^ (w - 1) ≤ x ≤ 2 ^ (w - 1) - 1 → wrap_signed w x = x.
Proof.
  intros Hw Hx. unfold wrap_signed.
  assert (2 ^ w = 2 * 2 ^ (w - 1)) as ->.
  { rewrite <-Z.pow_succ_r by lia. f_equal. lia. }
  rewrite Z.mod_small; lia.
Qed.

Lemma wrap_unsigned_small w x : 0 ≤ x ≤ 2 ^ w - 1 → wrap_unsigned w x = x.
Proof. intros Hx. unfold wrap_unsigned. apply Z.mod_small. lia. Qed.

Lemma base_requested tag :
  base tag = match requested_base tag with
             | Ok b => (b, None)
             | Err e => ((base tag).1, Some e)
             end.
Proof.
  unfold base, requested_base.
  destruct (Tag_Lookup tag "base") as [baseStr|]; [|by rewrite int_small by lia].
  destruct (strconv.ParseInt IntSize baseStr 10 32) as [b [e|]] eqn:Hp; [done|].
  apply strconv_facts.ParseInt_range in Hp.
  - unfold bitWidth in Hp. simpl in Hp. by rewrite int_small by lia.
  - split; [apply IntSize_cases|auto].
Qed.

Lemma bits_width k :
  isSigned k || isUnsigned k = true →
  goWidth IntSize (bitSize_of k) ∧
  bits k = bitWidth IntSize (bitSize_of k).
Proof.
  intros Hk. split; [split; [apply IntSize_cases|]|]; destruct k; try done; simpl; auto 10.
Qed.

(** C8.  For a field of an integer kind, signed or unsigned, of width 8,
    16, 32, 64 or the platform's, and a raw value: the decoder takes the
    base from the [base] annotation of the field, 10 when there is none;
    when the annotation does not parse as a base-10 integer (of 32 bits)
    it returns the error "invalid int base" and writes nothing; else it
    parses the raw value with [strconv.ParseInt] or [strconv.ParseUint],
    by the signedness of the kind, in that base and at the bit size of
    the kind, returns the parser's error if there is one, writing
    nothing, and otherwise assigns the parsed integer, unchanged, to the
    field. *)
Theorem integer_decoder valf k f value (s : store) :
  Kind_of (Type_of valf) = k →
  isSigned k || isUnsigned k = true →
  decodeFormValue valf k f value s =
    match requested_base (Tag f) with
    | Err e => (s, Some e)
    | Ok b =>
        let '(n, err) :=
          (if isSigned k then strconv.ParseInt else strconv.ParseUint)
            IntSize value b (bitSize_of k) in
        match err with
        | Some e => (s, Some e)
        | None => (Set_ s valf (if isSigned k then VInt n else VUint n), None)
        end
    end.
Proof.
  intros Hkind Hk. destruct (bits_width k Hk) as [Hw Hbits].
  assert (decodeFormValue valf k f value s
          = if isSigned k then decodeInt valf (Tag f) (bitSize_of k) value s
            else decodeUint valf (Tag f) (bitSize_of k) value s) as ->
    by (destruct k; done).
  pose proof (strconv_facts.width_range _ _ Hw) as Hw8.
  destruct (isSigned k).
  - unfold decodeInt. rewrite base_requested.
    destruct (requested_base (Tag f)) as [b|e]; [|done].
    destruct (strconv.ParseInt IntSize value b (bitSize_of k)) as [n [e|]] eqn:Hp; [done|].
    apply strconv_facts.ParseInt_range in Hp; [|done].
    unfold SetInt. rewrite Hkind, Hbits. by rewrite wrap_signed_small by lia.
  - unfold decodeUint. rewrite base_requested.
    destruct (requested_base (Tag f)) as [b|e]; [|done].
    destruct (strconv.ParseUint IntSize value b (bitSize_of k)) as [n [e|]] eqn:Hp; [done|].
    apply strconv_facts.ParseUint_result in Hp; [|done].
    unfold SetUint. rewrite Hkind, Hbits. by rewrite wrap_unsigned_small by lia.
Qed.

End integers.

Lemma integer_decoder_witness :
  decodeFormValue (H := textHost) (FieldByName "Mask" (TBasic Uint8)) Uint8 maskField "fF"
    {[ "Mask"%string := VUint 0 ]}
  = (<["Mask"%string := VUint 255]> {[ "Mask"%string := VUint 0 ]}, None).
Proof.
  rewrite (integer_decoder (H := textHost) (FieldByName "Mask" (TBasic Uint8)) Uint8 maskField
             "fF" {[ "Mask"%string := VUint 0 ]} eq_refl eq_refl).
  reflexivity.
Defined.

Module format_facts.
Local Open Scope Z_scope.
Import strconv.

Lemma code_digit d : 0 ≤ d < 10 → code (digit d) = 48 + d.
Proof.
  intros Hd. unfold code, digit.
  rewrite N_ascii_embedding by lia. lia.
Qed.

Section digits.
Variables (cutoff maxVal : Z).
Hypothesis Hcutoff : cutoff = strconv.maxUint64 / 10 + 1.
Hypothesis HmaxVal : maxVal ≤ strconv.maxUint64.

Lemma digitLoop_digit d n cs :
  0 ≤ d < 10 → 0 ≤ n → n * 10 + d ≤ maxVal →
  strconv.digitLoop false 10 cutoff maxVal (code (digit d) :: cs) n false
  = strconv.digitLoop false 10 cutoff maxVal cs (n * 10 + d) false.
Proof.
  intros Hd Hn Hle. rewrite code_digit by done. cbn [strconv.digitLoop].
  unfold strconv.maxUint64 in *.
  replace (48 + d =? 95) with false by lia. cbn [andb].
  replace ((48 <=? 48 + d) && (48 + d <=? 57)) with true by lia.
  replace (48 + d - 48) with d by lia.
  change (strconv.byte 10) with 10.
  replace (d >=? 10) with false by lia.
  replace (n >=? cutoff) with false by (subst cutoff; Z.div_mod_to_equations; lia).
  unfold strconv.uint64.
  rewrite (Z.mod_small (n * 10)) by lia.
  rewrite (Z.mod_small (n * 10 + d)) by lia.
  replace (n * 10 + d <? n * 10) with false by lia.
  replace (n * 10 + d >? maxVal) with false by lia.
  reflexivity.
Qed.

Lemma digitLoop_formatDigits fuel u acc :
  0 ≤ u < 10 ^ Z.of_nat fuel → u ≤ maxVal →
  strconv.digitLoop false 10 cutoff maxVal (codes (formatDigits fuel u acc)) 0 false
  = strconv.digitLoop false 10 cutoff maxVal (codes acc) u false.
Proof.
  revert u acc. induction fuel as [|fuel IH]; intros u acc Hu Hle.
  - simpl in *. by replace u with 0 by lia.
  - cbn [formatDigits]. destruct (u <? 10) eqn:Hlt.
    + rewrite Z.mod_small by lia.
      change (codes (String (digit u) acc)) with (code (digit u) :: codes acc).
      rewrite digitLoop_digit by lia. f_equal. 
    + rewrite Nat2Z.inj_succ, Z.pow_succ_r in Hu by lia.
      rewrite IH by (Z.div_mod_to_equations; lia).
      change (codes (String (digit (u mod 10)) acc))
        with (code (digit (u mod 10)) :: codes acc).
      rewrite digitLoop_digit by (Z.div_mod_to_equations; lia).
      f_equal. Z.div_mod_to_equations; lia.
Qed.

End digits.

Lemma formatDigits_head fuel u acc :
  0 ≤ u → ∃ d rest, 0 ≤ d < 10 ∧ formatDigits (S fuel) u acc = String (digit d) rest.
Proof.
  revert u acc. induction fuel as [|fuel IH]; intros u acc Hu.
  - exists (u mod 10), acc. split; [Z.div_mod_to_equations; lia|].
    cbn [formatDigits]. by destruct (u <? 10).
  - cbn [formatDigits] in *. destruct (u <? 10).
    + exists (u mod 10), acc. split; [Z.div_mod_to_equations; lia|done].
    + apply IH. Z.div_mod_to_equations; lia.
Qed.

Lemma digit_not_sign d :
  0 ≤ d < 10 → Ascii.eqb (digit d) "+" = false ∧ Ascii.eqb (digit d) "-" = false.
Proof.
  intros Hd.
  assert (d = 0 ∨ d = 1 ∨ d = 2 ∨ d = 3 ∨ d = 4 ∨ d = 5 ∨ d = 6 ∨ d = 7 ∨ d = 8 ∨ d = 9)
    as Hcases by lia.
  repeat destruct Hcases as [->|Hcases]; try subst d; by split.
Qed.

Import strconv_facts.

Lemma ParseUint_FormatUint IntSize bitSize u :
  goWidth IntSize bitSize →
  0 ≤ u ≤ 2 ^ bitWidth IntSize bitSize - 1 →
  strconv.ParseUint IntSize (FormatUint u) 10 bitSize = (u, None).
Proof.
  intros Hw Hu. pose proof (width_range _ _ Hw) as Hw8.
  assert (2 ^ bitWidth IntSize bitSize ≤ 2 ^ 64) as Hpow by (apply Z.pow_le_mono_r; lia).
  unfold strconv.ParseUint.
  destruct (formatDigits_head 19 u EmptyString) as (d & rest & Hd & Hhead); [lia|].
  fold (FormatUint u) in Hhead.
  rewrite decide_False by (rewrite Hhead; done).
  change (strconv.pickBase 10 (codes (FormatUint u))) with (Some (10, codes (FormatUint u))).
  cbv iota beta.
  assert ((if bitSize =? 0 then Some IntSize
           else if (bitSize <? 0) || (bitSize >? 64) then None else Some bitSize)
          = Some (bitWidth IntSize bitSize)) as ->.
  { unfold bitWidth. destruct Hw as [_ [-> | [-> | [-> | [-> | ->]]]]]; reflexivity. }
  rewrite maxVal_width by done.
  unfold FormatUint.
  rewrite (digitLoop_formatDigits (strconv.maxUint64 / 10 + 1)) ; [done|done| | |lia].
  - unfold strconv.maxUint64. lia.
  - change (Z.of_nat 20) with 20. lia.
Qed.

Lemma ParseInt_FormatInt IntSize bitSize i :
  goWidth IntSize bitSize →
  - 2 ^ (bitWidth IntSize bitSize - 1) ≤ i ≤ 2 ^ (bitWidth IntSize bitSize - 1) - 1 →
  strconv.ParseInt IntSize (FormatInt i) 10 bitSize = (i, None).
Proof.
  intros Hw Hi. pose proof (width_range _ _ Hw) as Hw8.
  set (w := bitWidth IntSize bitSize) in *.
  assert (2 ^ 7 ≤ 2 ^ (w - 1) ≤ 2 ^ 63) as HC by (split; apply Z.pow_le_mono_r; lia).
  assert (2 ^ w = 2 * 2 ^ (w - 1)) as Hpow.
  { rewrite <-Z.pow_succ_r by lia. f_equal. lia. }
  assert (strconv.uint64 (2 ^ (w - 1)) = 2 ^ (w - 1)) as Hcut by (apply Z.mod_small; lia).
  unfold FormatInt. destruct (i <? 0) eqn:Hneg.
  - unfold strconv.ParseInt.
    change (Ascii.eqb "-" "+") with false. change (Ascii.eqb "-" "-") with true.
    cbv iota beta.
    rewrite ParseUint_FormatUint by (done || (fold w; lia)).
    cbv iota beta zeta. fold (bitWidth IntSize bitSize). fold w. rewrite Hcut.
    cbn [negb andb]. replace (- i >? 2 ^ (w - 1)) with false by lia.
    by rewrite int64_neg_neg by lia; rewrite Z.opp_involutive.
  - destruct (formatDigits_head 19 i EmptyString) as (d & rest & Hd & Hhead); [lia|].
    fold (FormatUint i) in Hhead.
    destruct (digit_not_sign d Hd) as [Hplus Hminus].
    unfold strconv.ParseInt. rewrite Hhead, Hplus, Hminus, <-Hhead.
    rewrite ParseUint_FormatUint by (done || (fold w; lia)).
    cbv iota beta zeta. fold (bitWidth IntSize bitSize). fold w. rewrite Hcut.
    cbn [negb andb]. replace (i >=? 2 ^ (w - 1)) with false by lia.
    by rewrite int64_small by lia.
Qed.

End format_facts.

(** ** Round trips of the scalar decoders

    Rendering a boolean, an integer of any width or a string in its
    canonical text and decoding the text into a field of the matching
    kind, without a [base] annotation, assigns the value rendered.  For
    the two float kinds the same holds of every float but a NaN. *)

Section roundtrip.
Context `{Host}.
Local Open Scope Z_scope.

Local Abbreviation store := (gmap string (value float64 Time Image)).

Lemma roundtrip_bool valf f b (s : store) :
  decodeFormValue valf Bool f (strconv.FormatBool b) s = (Set_ s valf (VBool b), None).
Proof. by destruct b. Qed.

Lemma roundtrip_string valf f x (s : store) :
  decodeFormValue valf String_ f x s = (Set_ s valf (VString x), None).
Proof. reflexivity. Qed.

Lemma base_default tag : Tag_Lookup tag "base" = None → base tag = (10, None).
Proof. intros Hb. unfold base. rewrite Hb. by rewrite int_small by lia. Qed.

Lemma roundtrip_int valf k f i (s : store) :
  Kind_of (Type_of valf) = k →
  isSigned k = true →
  Tag_Lookup (Tag f) "base" = None →
  - 2 ^ (bits k - 1) ≤ i ≤ 2 ^ (bits k - 1) - 1 →
  decodeFormValue valf k f (strconv.FormatInt i) s = (Set_ s valf (VInt i), None).
Proof.
  intros Hkind Hk Hbase Hi.
  destruct (bits_width k) as [Hw Hbits]; [by rewrite Hk|].
  pose proof (strconv_facts.width_range _ _ Hw) as Hw8.
  assert (decodeFormValue valf k f (strconv.FormatInt i) s
          = decodeInt valf (Tag f) (bitSize_of k) (strconv.FormatInt i) s) as ->
    by (destruct k; done).
  unfold decodeInt. rewrite base_default by done.
  rewrite format_facts.ParseInt_FormatInt by (done || (rewrite <-Hbits; lia)).
  unfold SetInt. rewrite Hkind. by rewrite wrap_signed_small by lia.
Qed.

Lemma roundtrip_uint valf k f u (s : store) :
  Kind_of (Type_of valf) = k →
  isUnsigned k = true →
  Tag_Lookup (Tag f) "base" = None →
  0 ≤ u ≤ 2 ^ bits k - 1 →
  decodeFormValue valf k f (strconv.FormatUint u) s = (Set_ s valf (VUint u), None).
Proof.
  intros Hkind Hk Hbase Hu.
  destruct (bits_width k) as [Hw Hbits]; [by rewrite Hk, orb_true_r|].
  assert (decodeFormValue valf k f (strconv.FormatUint u) s
          = decodeUint valf (Tag f) (bitSize_of k) (strconv.FormatUint u) s) as ->
    by (destruct k; done).
  unfold decodeUint. rewrite base_default by done.
  rewrite format_facts.ParseUint_FormatUint by (done || (rewrite <-Hbits; lia)).
  unfold SetUint. rewrite Hkind. by rewrite wrap_unsigned_small by lia.
Qed.

End roundtrip.

Section scalar_roundtrip.
Context `{FloatText}.
Local Open Scope Z_scope.

Local Abbreviation store := (gmap string (value float64 Time Image)).

Lemma Set_inj (s : store) valf v w : Set_ s valf v = Set_ s valf w → v = w.
Proof.
  unfold Set_. destruct (at_ valf) as [name|name]; intros Heq;
    apply (f_equal (λ m : store, m !! name)) in Heq;
    rewrite !lookup_insert_eq in Heq; congruence.
Qed.

(** A NaN never comes back equal to itself: whatever the text decodes
    to, [==] between the result and the NaN is false. *)
Lemma NaN_not_round_trip k x : IsNaN x = true → ¬ round_trips (SFloat k x).
Proof.
  intros Hnan Hrt.
  destruct (Hrt (FieldByName "F" (TBasic k)) (field "F" (TBasic k) "f") ∅ eq_refl eq_refl)
    as (w & _ & Heq).
  destruct w; simpl in Heq; try discriminate.
  destruct (float_eq_NaN x x0 Hnan) as [_ Hne]. congruence.
Qed.

(** C6, amended.  For a boolean, an integer of any of the ten integer
    kinds within the range of its width, a float64 or float32 that is
    not a NaN, or a string: rendering the value in its canonical text
    ([FormatBool], [FormatInt] and [FormatUint] in base 10,
    [FormatFloat] with the shortest digits, the string itself) and
    decoding the text into a field of that kind, without a [base]
    annotation, succeeds and assigns the value rendered, which is equal
    to the original. *)
Theorem scalar_round_trip (v : scalar) valf f (s : store) :
  is_value v → not_NaN v →
  Kind_of (Type_of valf) = scalar_kind v →
  Tag_Lookup (Tag f) "base" = None →
  decodeFormValue valf (scalar_kind v) f (render v) s
    = (Set_ s valf (scalar_value v), None) ∧
  go_equal (scalar_value v) (scalar_value v) = true.
Proof.
  intros Hv Hnan Hkind Hbase.
  destruct v as [b|k i|k u|k x|x]; simpl in Hv, Hnan, Hkind;
    cbn [scalar_kind render scalar_value go_equal].
  - split; [apply roundtrip_bool | by apply bool_decide_eq_true_2].
  - destruct Hv as [Hk Hi].
    split; [by apply roundtrip_int | by apply bool_decide_eq_true_2].
  - destruct Hv as [Hk Hu].
    split; [by apply roundtrip_uint | by apply bool_decide_eq_true_2].
  - split; [|by apply float_eq_refl].
    destruct Hv as [->|[-> Hx]]; simpl; unfold decodeFloat.
    + rewrite ParseFloat_FormatFloat by (done || by left).
      unfold SetFloat. by rewrite Hkind.
    + rewrite ParseFloat_FormatFloat by (done || by right).
      unfold SetFloat. by rewrite Hkind, Hx.
  - split; [apply roundtrip_string | by apply bool_decide_eq_true_2].
Qed.

End scalar_roundtrip.

(** C6, counterexample.  The text of the float64 NaN is [NaN];
    [decodeFloat] accepts it and assigns the NaN, which is not equal to
    the NaN rendered. *)
Lemma round_trips_counterexample :
  is_value nanScalar ∧
  decodeFormValue (H := textHost) (FieldByName "F" (TBasic Float64)) Float64
      (field "F" (TBasic Float64) "f") (render (H0 := textFloats) nanScalar) ∅
    = ({[ "F"%string := scalar_value nanScalar ]}, None) ∧
  go_equal (H0 := textFloats) (scalar_value nanScalar) (scalar_value nanScalar) = false ∧
  ¬ round_trips (H0 := textFloats) nanScalar.
Proof.
  split_and!.
  - by left.
  - reflexivity.
  - reflexivity.
  - by apply (NaN_not_round_trip (H0 := textFloats)).
Qed.

Lemma scalar_round_trip_witness :
  (is_value halfScalar ∧
   decodeFormValue (H := textHost) (FieldByName "Score" (TBasic Float32)) Float32
       (field "Score" (TBasic Float32) "score") "1.5" ∅
     = ({[ "Score"%string := scalar_value halfScalar ]}, None) ∧
   go_equal (H0 := textFloats) (scalar_value halfScalar) (scalar_value halfScalar) = true) ∧
  (is_value minInt8 ∧
   decodeFormValue (H := textHost) (FieldByName "Level" (TBasic Int8)) Int8
       (field "Level" (TBasic Int8) "level") "-128" ∅
     = ({[ "Level"%string := VInt (-128) ]}, None) ∧
   go_equal (H0 := textFloats) (VInt (-128)) (VInt (-128)) = true).
Proof.
  split.
  - assert (is_value halfScalar) as Hv by (right; split; reflexivity).
    split; [exact Hv|].
    exact (scalar_round_trip (H0 := textFloats) halfScalar
             (FieldByName "Score" (TBasic Float32)) (field "Score" (TBasic Float32) "score")
             ∅ Hv eq_refl eq_refl eq_refl).
  - assert (is_value minInt8) as Hv
      by (split; [reflexivity | vm_compute; split; discriminate]).
    split; [exact Hv|].
    exact (scalar_round_trip (H0 := textFloats) minInt8
             (FieldByName "Level" (TBasic Int8)) (field "Level" (TBasic Int8) "level")
             ∅ Hv I eq_refl eq_refl).
Defined.

(** * Further properties of the code *)

Section shape.
Context `{Host}.

Local Abbreviation store := (gmap string (value float64 Time Image)).

Ltac shape_write :=
  eexists (Some _), None; split; [intros ? ?; reflexivity | by intros []].
Ltac shape_error e := exists None, (Some e); split; [intros ? ?; reflexivity | done].
Ltac shape_skip := exists None, None; split; [intros ? ?; reflexivity | done].

(** A decoder reads the store nowhere: what it writes and the error it
    returns are fixed by the type of the place, the field and the text;
    and it writes nothing when it returns an error. *)
Lemma decodeFormValue_shape t kind f formValue :
  ∃ o e,
    (∀ a (s : store),
       decodeFormValue {| at_ := a; Type_of := t |} kind f formValue s
       = (applied {| at_ := a; Type_of := t |} o s, e)) ∧
    (is_Some e → o = None).
Proof.
  assert (∀ bitSize, ∃ o e,
            (∀ a (s : store),
               decodeInt {| at_ := a; Type_of := t |} (Tag f) bitSize formValue s
               = (applied {| at_ := a; Type_of := t |} o s, e)) ∧
            (is_Some e → o = None)) as Hint.
  { intros bitSize. unfold decodeInt, SetInt.
    destruct (base (Tag f)) as [b [e|]]; [shape_error e|].
    destruct (strconv.ParseInt IntSize formValue b bitSize) as [n [e|]]; [shape_error e|].
    simpl. shape_write. }
  assert (∀ bitSize, ∃ o e,
            (∀ a (s : store),
               decodeUint {| at_ := a; Type_of := t |} (Tag f) bitSize formValue s
               = (applied {| at_ := a; Type_of := t |} o s, e)) ∧
            (is_Some e → o = None)) as Huint.
  { intros bitSize. unfold decodeUint, SetUint.
    destruct (base (Tag f)) as [b [e|]]; [shape_error e|].
    destruct (strconv.ParseUint IntSize formValue b bitSize) as [n [e|]]; [shape_error e|].
    simpl. shape_write. }
  assert (∀ bitSize, ∃ o e,
            (∀ a (s : store),
               decodeFloat {| at_ := a; Type_of := t |} bitSize formValue s
               = (applied {| at_ := a; Type_of := t |} o s, e)) ∧
            (is_Some e → o = None)) as Hfloat.
  { intros bitSize. unfold decodeFloat, SetFloat.
    destruct (ParseFloat formValue bitSize) as [x [e|]]; [shape_error e|].
    simpl. shape_write. }
  destruct kind; simpl; try done;
    try (shape_error (errors_New "goform: invalid destination type")).
  - unfold decodeBool, SetBool.
    destruct (strconv.ParseBool formValue) as [b [e|]]; [shape_error e|shape_write].
  - case_decide; [|shape_skip].
    shape_write.
  - shape_write.
  - unfold decodeStruct. simpl.
    case_decide; [|shape_error (errors_New "goform: invalid destination type")].
    destruct (decide (Tag_Get (Tag f) "tz" = EmptyString)) as [Htz|Htz].
    + destruct (time_Parse _ formValue) as [tv [e|]]; [shape_error e|].
      shape_write.
    + destruct (time_LoadLocation _) as [loc|e]; [|shape_error e].
      destruct (time_ParseInLocation _ formValue loc) as [tv [e|]]; [shape_error e|].
      shape_write.
Qed.

Lemma decodeMultipart_shape r tag t kind tagOptions :
  ∃ o e,
    (∀ a (s : store),
       decodeMultipart r tag {| at_ := a; Type_of := t |} kind tagOptions s
       = (applied {| at_ := a; Type_of := t |} o s, e)) ∧
    (is_Some e → o = None).
Proof.
  assert (∀ hdr, ∃ o e,
            (∀ a (s : store),
               decodeMultipartFile {| at_ := a; Type_of := t |} kind tagOptions hdr s
               = (applied {| at_ := a; Type_of := t |} o s, e)) ∧
            (is_Some e → o = None)) as Hfile.
  { intros hdr. unfold decodeMultipartFile, SetBytes. simpl.
    destruct (multipart.Open hdr) as [data|e]; [|shape_error e].
    generalize (if base64 tagOptions then base64.NewDecoder data else data).
    intros rdr. unfold ReadAll.
    case_decide.
    - destruct (r_err rdr) as [e|]; [shape_error e|].
      shape_write.
    - destruct (Implements_Image t); [|shape_skip].
      destruct (image_Decode _) as [img|e]; [|shape_error e].
      shape_write. }
  unfold decodeMultipart.
  destruct (http.MultipartForm r) as [form|].
  - destruct (default [] (multipart.File form !! tag)) as [|hdr0 rest]; [|apply Hfile].
    destruct (required tagOptions); [shape_error (missingRequired tag)|shape_skip].
  - destruct (required tagOptions); [shape_error (missingRequired tag)|shape_skip].
Qed.

(** The step of the loop for a field: one optional write to the field,
    and an error, neither depending on the store. *)
Lemma bindField_shape r f :
  ∃ o e,
    (∀ s : store, bindField r f s = (written (Name f) o s, e)) ∧
    (Kind_of (Type_ f) ≠ Ptr → is_Some e → o = None).
Proof.
  unfold bindField. destruct (parseTag _) as [tag tagOptions].
  case_decide; [by exists None, None|].
  assert (∃ o e, (∀ a (s : store),
            (if decide (1 < length (default [] (http.Form r !! tag)))%nat
             then (s, Some (errors_New "goform: arrays not supported yet"))
             else match default [] (http.Form r !! tag) with
                  | [] => decodeMultipart r tag {| at_ := a; Type_of := Elem (Type_ f) |}
                            (Kind_of (Elem (Type_ f))) tagOptions s
                  | formValue :: _ =>
                      decodeFormValue {| at_ := a; Type_of := Elem (Type_ f) |}
                        (Kind_of (Elem (Type_ f))) f formValue s
                  end)
            = (applied {| at_ := a; Type_of := Elem (Type_ f) |} o s, e))
          ∧ (is_Some e → o = None)) as (op & ep & Hp & Hpe).
  { case_decide; [shape_error (errors_New "goform: arrays not supported yet")|].
    destruct (default [] (http.Form r !! tag)) as [|formValue rest].
    - apply decodeMultipart_shape.
    - apply decodeFormValue_shape. }
  assert (∃ o e, (∀ a (s : store),
            (if decide (1 < length (default [] (http.Form r !! tag)))%nat
             then (s, Some (errors_New "goform: arrays not supported yet"))
             else match default [] (http.Form r !! tag) with
                  | [] => decodeMultipart r tag {| at_ := a; Type_of := Type_ f |}
                            (Kind_of (Type_ f)) tagOptions s
                  | formValue :: _ =>
                      decodeFormValue {| at_ := a; Type_of := Type_ f |}
                        (Kind_of (Type_ f)) f formValue s
                  end)
            = (applied {| at_ := a; Type_of := Type_ f |} o s, e))
          ∧ (is_Some e → o = None)) as (od & ed & Hd & Hde).
  { case_decide; [shape_error (errors_New "goform: arrays not supported yet")|].
    destruct (default [] (http.Form r !! tag)) as [|formValue rest].
    - apply decodeMultipart_shape.
    - apply decodeFormValue_shape. }
  destruct (decide (Kind_of (Type_ f) = Ptr)) as [Hptr|Hptr].
  - exists (Some (VPtr (default (zero (Elem (Type_ f))) op))), ep. split; [|done].
    intros s. unfold Indirect, FieldByName. simpl. rewrite Hp.
    unfold applied, Set_. simpl. destruct op; simpl; [|done].
    by rewrite insert_insert_eq.
  - exists od, ed. split; [|by intros _].
    intros s. unfold FieldByName. rewrite Hd.
    unfold applied, written, Set_. simpl. by destruct od.
Qed.

End shape.

Section independence.
Context `{Host}.

Local Abbreviation store := (gmap string (value float64 Time Image)).

Lemma written_lookup name o (s : store) n :
  written name o s !! n = if decide (n = name) then (match o with Some x => Some x | None => s !! n end) else s !! n.
Proof.
  unfold written. destruct o as [x|]; [|by case_decide].
  case_decide; [subst; apply lookup_insert_eq|by apply lookup_insert_ne].
Qed.

(** X11.  When the step of the loop for a field that is not a pointer
    returns an error, it has written nothing: the store it returns is
    the store it was given. *)
Theorem failing_step_writes_nothing r f (s s' : store) err :
  Kind_of (Type_ f) ≠ Ptr →
  bindField r f s = (s', Some err) →
  s' = s.
Proof.
  intros Hk Hb. destruct (bindField_shape r f) as (o & e & Hshape & Herr).
  rewrite Hshape in Hb. simplify_eq.
  by rewrite (Herr Hk (mk_is_Some _ _ eq_refl)).
Qed.

(** X12.  The loop never reads the destination: run on two records of
    the same declaration, it returns the same error or none in both, and
    each field ends up either with the same value in both, or in both
    with the value it had before. *)
Theorem bind_ignores_destination r fields (s1 s2 : store) :
  (bindFields r fields s1).2 = (bindFields r fields s2).2 ∧
  ∀ n,
    (bindFields r fields s1).1 !! n = (bindFields r fields s2).1 !! n
    ∨ ((bindFields r fields s1).1 !! n = s1 !! n ∧ (bindFields r fields s2).1 !! n = s2 !! n).
Proof.
  revert s1 s2. induction fields as [|f rest IH]; intros s1 s2.
  - simpl. split; [done|]. intros n. by right.
  - simpl. destruct (bindField_shape r f) as (o & e & Hshape & _).
    rewrite !Hshape.
    assert (∀ n, written (Name f) o s1 !! n = written (Name f) o s2 !! n
                 ∨ (written (Name f) o s1 !! n = s1 !! n
                    ∧ written (Name f) o s2 !! n = s2 !! n)) as Hstep.
    { intros n. rewrite !written_lookup. case_decide; [|by right].
      destruct o; [by left|by right]. }
    destruct e as [e|]; [by split|].
    destruct (IH (written (Name f) o s1) (written (Name f) o s2)) as [Herr Hlook].
    split; [done|]. intros n.
    destruct (Hlook n) as [Heq|[H1 H2]]; [by left|].
    rewrite H1, H2. apply Hstep.
Qed.

(** After a loop without error, each field holds what its own step
    yields from the store the loop began with. *)
Lemma bindFields_own r (fields : list StructField) (s s' : store) f :
  NoDup (map Name fields) →
  bindFields r fields s = (s', None) →
  f ∈ fields →
  s' !! Name f = (bindField r f s).1 !! Name f.
Proof.
  intros Hnd Hb Hf.
  apply list_elem_of_split in Hf as (pre & post & ->).
  rewrite fmap_app, fmap_cons in Hnd.
  apply NoDup_app in Hnd as (_ & Hpre & Hpost).
  apply NoDup_cons in Hpost as [Hpost _].
  rewrite bindFields_app in Hb.
  destruct (bindFields r pre s) as [s1 [e|]] eqn:Hb1; [done|].
  simpl in Hb. destruct (bindField_shape r f) as (o & e & Hshape & _).
  rewrite Hshape in Hb. rewrite Hshape. simpl.
  destruct e as [e|]; [done|].
  replace s' with (bindFields r post (written (Name f) o s1)).1 by by rewrite Hb.
  rewrite bindFields_frame by done.
  rewrite !written_lookup. rewrite !decide_True by done.
  destruct o; [done|].
  replace s1 with (bindFields r pre s).1 by by rewrite Hb1.
  apply bindFields_frame. intros Hin. by apply (Hpre (Name f)); [|left].
Qed.

End independence.

Section dispatch.
Context `{Host}.

Local Abbreviation store := (gmap string (value float64 Time Image)).

Lemma bindField_one_value r f (s : store) tag tagOptions formValue :
  parseTag (Tag_Get (Tag f) "form") = (tag, tagOptions) →
  tag ≠ EmptyString → tag ≠ "-"%string →
  default [] (http.Form r !! tag) = [formValue] →
  bindField r f s
  = decodeFormValue (effPlace f) (Kind_of (effType f)) f formValue (allocate f s).
Proof.
  intros Htag Hne1 Hne2 Hform. unfold bindField, allocate, effPlace, effType.
  rewrite Htag. rewrite decide_False by (intros [?|?]; done).
  destruct (decide (Kind_of (Type_ f) = Ptr)); rewrite Hform;
    by rewrite decide_False by (simpl; lia).
Qed.

Lemma bindField_file r f (s : store) tag tagOptions form hdr rest :
  parseTag (Tag_Get (Tag f) "form") = (tag, tagOptions) →
  tag ≠ EmptyString → tag ≠ "-"%string →
  default [] (http.Form r !! tag) = [] →
  http.MultipartForm r = Some form →
  default [] (multipart.File form !! tag) = hdr :: rest →
  bindField r f s
  = decodeMultipartFile (effPlace f) (Kind_of (effType f)) tagOptions hdr (allocate f s).
Proof.
  intros Htag Hne1 Hne2 Hform Hmf Hfile. unfold bindField, allocate, effPlace, effType.
  rewrite Htag. rewrite decide_False by (intros [?|?]; done).
  destruct (decide (Kind_of (Type_ f) = Ptr)); rewrite Hform;
    (rewrite decide_False by (simpl; lia)); unfold decodeMultipart; by rewrite Hmf, Hfile.
Qed.

Lemma effPlace_type f : Type_of (effPlace f) = effType f.
Proof. unfold effPlace, effType. by case_decide. Qed.

(** X3.  A [[]byte] field with a tag other than the empty string and
    [-] whose key has one form value is assigned the bytes of that value
    as they are: the [base64] option is not applied to a form value, and
    a file part under the same key is not looked at. *)
Theorem form_value_bytes_raw r f (s : store) tag tagOptions formValue :
  Type_ f = TBytes →
  parseTag (Tag_Get (Tag f) "form") = (tag, tagOptions) →
  tag ≠ EmptyString → tag ≠ "-"%string →
  default [] (http.Form r !! tag) = [formValue] →
  bindField r f s = (<[Name f := VBytes (list_ascii_of_string formValue)]> s, None).
Proof.
  intros Hty Htag Hne1 Hne2 Hform.
  rewrite (bindField_one_value r f s tag tagOptions formValue) by done.
  unfold effPlace, effType, allocate. rewrite Hty. simpl. reflexivity.
Qed.

(** X4.  When the key of a field has one form value and the type the
    field is decoded at (the pointed-to type, for a pointer) is of a kind
    without a decoder (complex, array, map, chan, func, interface,
    pointer, uintptr), or is a struct other than [time.Time], the step
    fails with "goform: invalid destination type"; apart from the
    allocation of a pointer field nothing is written.  An [image.Image]
    field is such a field: it cannot be bound from a form value. *)
Theorem unsupported_kind_rejected r f (s : store) tag tagOptions formValue :
  parseTag (Tag_Get (Tag f) "form") = (tag, tagOptions) →
  tag ≠ EmptyString → tag ≠ "-"%string →
  default [] (http.Form r !! tag) = [formValue] →
  handled (Kind_of (effType f)) = false
  ∨ (Kind_of (effType f) = Struct ∧ effType f ≠ TTime) →
  bindField r f s = (allocate f s, Some (errors_New "goform: invalid destination type")).
Proof.
  intros Htag Hne1 Hne2 Hform Hk.
  rewrite (bindField_one_value r f s tag tagOptions formValue) by done.
  apply decodeFormValue_unsupported; [by rewrite effPlace_type|].
  by rewrite effPlace_type.
Qed.

(** X8.  When the key of a field has no form value and has a file part
    that opens, and the type the field is decoded at is not [[]byte] and
    does not implement [image.Image], the part is passed over: the step
    returns no error, also for a required field, and apart from the
    allocation of a pointer field nothing is written. *)
Theorem file_part_ignored r f (s : store) tag tagOptions form hdr rest rd :
  parseTag (Tag_Get (Tag f) "form") = (tag, tagOptions) →
  tag ≠ EmptyString → tag ≠ "-"%string →
  default [] (http.Form r !! tag) = [] →
  http.MultipartForm r = Some form →
  default [] (multipart.File form !! tag) = hdr :: rest →
  multipart.Open hdr = Ok rd →
  effType f ≠ TBytes → Implements_Image (effType f) = false →
  bindField r f s = (allocate f s, None).
Proof.
  intros Htag Hne1 Hne2 Hform Hmf Hfile Hopen Hb Hi.
  rewrite (bindField_file r f s tag tagOptions form hdr rest) by done.
  unfold decodeMultipartFile. rewrite Hopen, effPlace_type.
  rewrite decide_False by done.
  by rewrite Hi.
Qed.

End dispatch.

Module base64_errors.

Lemma decodeQuanta_foreign src c :
  c ∈ src → base64.decodeMap c = None → c ≠ base64.padChar →
  is_Some (base64.decodeQuanta src).2.
Proof.
  intros Hin Hc Hpad.
  assert (∀ (n : nat) src, (length src ≤ n)%nat → c ∈ src →
            is_Some (base64.decodeQuanta src).2) as Hind.
  { clear src Hin. induction n as [|n IH]; intros src Hlen Hin.
    - destruct src; [by apply elem_of_nil in Hin|simpl in Hlen; lia].
    - destruct src as [|c1 [|c2 [|c3 [|c4 rest]]]];
        [by apply elem_of_nil in Hin|by eexists..|].
      cbn [base64.decodeQuanta].
      destruct (base64.decodeMap c1) as [v1|] eqn:H1; [|by eexists].
      destruct (base64.decodeMap c2) as [v2|] eqn:H2; [|by eexists].
      assert (c ≠ c1) as Hn1 by (intros ->; congruence).
      assert (c ≠ c2) as Hn2 by (intros ->; congruence).
      destruct (base64.decodeMap c3) as [v3|] eqn:H3.
      + assert (c ≠ c3) as Hn3 by (intros ->; congruence).
        destruct (base64.decodeMap c4) as [v4|] eqn:H4.
        * assert (c ≠ c4) as Hn4 by (intros ->; congruence).
          assert (c ∈ rest) as Hrest.
          { rewrite !elem_of_cons in Hin. by destruct Hin as [?|[?|[?|[?|?]]]]. }
          destruct (IH rest) as [e He]; [simpl in Hlen; lia|done|].
          destruct (base64.decodeQuanta rest) as [out e']. simpl in *. by eexists.
        * destruct (Ascii.eqb c4 base64.padChar) eqn:Hp4; [|by eexists].
          apply Ascii.eqb_eq in Hp4.
          destruct rest; [|by eexists].
          rewrite !elem_of_cons in Hin.
          destruct Hin as [?|[?|[?|[?|Hin]]]]; try congruence.
          by apply elem_of_nil in Hin.
      + destruct (Ascii.eqb c3 base64.padChar) eqn:Hp3; [|by eexists].
        destruct (Ascii.eqb c4 base64.padChar) eqn:Hp4; [|by eexists].
        apply Ascii.eqb_eq in Hp3, Hp4. simpl.
        destruct rest; [|by eexists].
        rewrite !elem_of_cons in Hin.
        destruct Hin as [?|[?|[?|[?|Hin]]]]; try congruence.
        by apply elem_of_nil in Hin. }
  by apply (Hind (length src)).
Qed.

Lemma decodeQuanta_length src :
  (length src mod 4 ≠ 0)%nat → is_Some (base64.decodeQuanta src).2.
Proof.
  assert (∀ (n : nat) src, (length src ≤ n)%nat → (length src mod 4 ≠ 0)%nat →
            is_Some (base64.decodeQuanta src).2) as Hind.
  { clear src. induction n as [|n IH]; intros src Hlen Hmod.
    - destruct src; [done|simpl in Hlen; lia].
    - destruct src as [|c1 [|c2 [|c3 [|c4 rest]]]]; [done|by eexists..|].
      assert (length rest mod 4 ≠ 0)%nat as Hrest.
      { intros Hr. apply Hmod. 
        change (length (c1 :: c2 :: c3 :: c4 :: rest)) with (4 + length rest)%nat.
        rewrite <-(Nat.Div0.add_mod_idemp_l 4). simpl. done. }
      assert (rest ≠ []) as Hne by (intros ->; done).
      cbn [base64.decodeQuanta].
      destruct (base64.decodeMap c1) as [v1|]; [|by eexists].
      destruct (base64.decodeMap c2) as [v2|]; [|by eexists].
      destruct (base64.decodeMap c3) as [v3|].
      + destruct (base64.decodeMap c4) as [v4|].
        * destruct (IH rest) as [e He]; [simpl in Hlen; lia|done|].
          destruct (base64.decodeQuanta rest) as [out e']. simpl in *. by eexists.
        * destruct (Ascii.eqb c4 base64.padChar); [|by eexists].
          destruct rest; [done|by eexists].
      + destruct (Ascii.eqb c3 base64.padChar && Ascii.eqb c4 base64.padChar); [|by eexists].
        destruct rest; [done|by eexists]. }
  by apply (Hind (length src)).
Qed.

Lemma NewDecoder_error rd :
  is_Some (base64.decodeQuanta (filter (λ c, base64.isNewline c = false) (r_data rd))).2 →
  is_Some (r_err (base64.NewDecoder rd)).
Proof.
  intros [e He]. unfold base64.NewDecoder.
  destruct (base64.decodeQuanta _) as [out e']. simpl in *. subst e'.
  destruct e; try by eexists. destruct (r_err rd); by eexists.
Qed.

End base64_errors.

Section corrupt.
Context `{Host}.

Local Abbreviation store := (gmap string (value float64 Time Image)).

(** X9.  For a [[]byte] field with the [base64] option bound from a
    file part: when the content holds a byte that is neither of the
    standard alphabet, nor [=], nor a line break, or when its length
    without line breaks is not a multiple of four (unpadded text, for
    one), the step fails and the field is not written. *)
Theorem corrupt_base64_rejected r f (s : store) tag tagOptions form hdr rest rd :
  Type_ f = TBytes →
  parseTag (Tag_Get (Tag f) "form") = (tag, tagOptions) →
  tag ≠ EmptyString → tag ≠ "-"%string →
  base64 tagOptions = true →
  default [] (http.Form r !! tag) = [] →
  http.MultipartForm r = Some form →
  default [] (multipart.File form !! tag) = hdr :: rest →
  multipart.Open hdr = Ok rd →
  (∃ c, c ∈ r_data rd ∧ foreign c)
  ∨ (length (filter (λ c, base64.isNewline c = false) (r_data rd)) mod 4 ≠ 0)%nat →
  ∃ err, bindField r f s = (s, Some err).
Proof.
  intros Hty Htag Hne1 Hne2 Hb64 Hform Hmf Hfile Hopen Hbad.
  rewrite (bindField_file r f s tag tagOptions form hdr rest) by done.
  unfold decodeMultipartFile, effPlace, effType, allocate.
  rewrite Hopen, Hb64, Hty. simpl.
  destruct (base64_errors.NewDecoder_error rd) as [err Herr]; [|rewrite Herr; by eexists].
  destruct Hbad as [(c & Hin & Hdec & Hpad & Hnl)|Hlen].
  - apply (base64_errors.decodeQuanta_foreign _ c); [|done..].
    by apply list_elem_of_filter.
  - by apply base64_errors.decodeQuanta_length.
Qed.

End corrupt.

Module overflow_facts.
Local Open Scope Z_scope.
Import strconv.

Section digits.
Variables (cutoff maxVal : Z).
Hypothesis Hcutoff : cutoff = strconv.maxUint64 / 10 + 1.
Hypothesis HmaxVal : 0 ≤ maxVal ≤ strconv.maxUint64.

(** A digit that takes the number read past [maxVal] ends the loop. *)
Lemma digitLoop_digit_over d n cs :
  0 ≤ d < 10 → 0 ≤ n ≤ maxVal → maxVal < n * 10 + d ≤ strconv.maxUint64 →
  strconv.digitLoop false 10 cutoff maxVal (code (digit d) :: cs) n false
  = inr (maxVal, ErrRange).
Proof.
  intros Hd Hn Hover. rewrite format_facts.code_digit by done. cbn [strconv.digitLoop].
  unfold strconv.maxUint64 in *.
  replace (48 + d =? 95) with false by lia. cbn [andb].
  replace ((48 <=? 48 + d) && (48 + d <=? 57)) with true by lia.
  replace (48 + d - 48) with d by lia.
  change (strconv.byte 10) with 10.
  replace (d >=? 10) with false by lia.
  destruct (n >=? cutoff); [done|].
  unfold strconv.uint64.
  rewrite (Z.mod_small (n * 10)) by lia.
  rewrite (Z.mod_small (n * 10 + d)) by lia.
  replace (n * 10 + d <? n * 10) with false by lia.
  by replace (n * 10 + d >? maxVal) with true by lia.
Qed.

Lemma digitLoop_formatDigits_over fuel u acc :
  0 ≤ u < 10 ^ Z.of_nat fuel → maxVal < u ≤ strconv.maxUint64 →
  strconv.digitLoop false 10 cutoff maxVal (codes (formatDigits fuel u acc)) 0 false
  = inr (maxVal, ErrRange).
Proof.
  revert u acc. induction fuel as [|fuel IH]; intros u acc Hu Hover.
  - simpl in Hu. lia.
  - cbn [formatDigits]. destruct (u <? 10) eqn:Hlt.
    + rewrite Z.mod_small by lia.
      change (codes (String (digit u) acc)) with (code (digit u) :: codes acc).
      apply digitLoop_digit_over; lia.
    + rewrite Nat2Z.inj_succ, Z.pow_succ_r in Hu by lia.
      destruct (Z_le_gt_dec (u / 10) maxVal) as [Hle|Hgt].
      * rewrite (format_facts.digitLoop_formatDigits cutoff maxVal Hcutoff)
          by (lia || (Z.div_mod_to_equations; lia)).
        change (codes (String (digit (u mod 10)) acc))
          with (code (digit (u mod 10)) :: codes acc).
        apply digitLoop_digit_over; Z.div_mod_to_equations; lia.
      * apply IH; Z.div_mod_to_equations; lia.
Qed.

End digits.

Lemma ParseUint_FormatUint_over IntSize bitSize u :
  goWidth IntSize bitSize →
  2 ^ bitWidth IntSize bitSize - 1 < u ≤ strconv.maxUint64 →
  strconv.ParseUint IntSize (FormatUint u) 10 bitSize
  = (2 ^ bitWidth IntSize bitSize - 1, Some (strconv.rangeError "ParseUint" (FormatUint u))).
Proof.
  intros Hw Hu. pose proof (strconv_facts.width_range _ _ Hw) as Hw8.
  assert (2 ^ 8 ≤ 2 ^ bitWidth IntSize bitSize ≤ 2 ^ 64) as Hpow
    by (split; apply Z.pow_le_mono_r; lia).
  unfold strconv.ParseUint.
  destruct (format_facts.formatDigits_head 19 u EmptyString) as (d & rest & Hd & Hhead); [lia|].
  fold (FormatUint u) in Hhead.
  rewrite decide_False by (rewrite Hhead; done).
  change (strconv.pickBase 10 (codes (FormatUint u))) with (Some (10, codes (FormatUint u))).
  cbv iota beta.
  assert ((if bitSize =? 0 then Some IntSize
           else if (bitSize <? 0) || (bitSize >? 64) then None else Some bitSize)
          = Some (bitWidth IntSize bitSize)) as ->.
  { unfold bitWidth. destruct Hw as [_ [-> | [-> | [-> | [-> | ->]]]]]; reflexivity. }
  rewrite strconv_facts.maxVal_width by done.
  unfold FormatUint.
  rewrite (digitLoop_formatDigits_over (strconv.maxUint64 / 10 + 1)); [done|done|..];
    unfold strconv.maxUint64 in *; try change (Z.of_nat 20) with 20; lia.
Qed.

Lemma ParseInt_FormatInt_over IntSize bitSize i :
  goWidth IntSize bitSize →
  - 2 ^ 63 ≤ i ≤ 2 ^ 63 - 1 →
  i < - 2 ^ (bitWidth IntSize bitSize - 1) ∨ 2 ^ (bitWidth IntSize bitSize - 1) - 1 < i →
  (strconv.ParseInt IntSize (FormatInt i) 10 bitSize).2
  = Some (strconv.rangeError "ParseInt" (FormatInt i)).
Proof.
  intros Hw Hi Hout. pose proof (strconv_facts.width_range _ _ Hw) as Hw8.
  set (w := bitWidth IntSize bitSize) in *.
  assert (2 ^ 7 ≤ 2 ^ (w - 1) ≤ 2 ^ 63) as HC by (split; apply Z.pow_le_mono_r; lia).
  assert (2 ^ w = 2 * 2 ^ (w - 1)) as Hpow.
  { rewrite <-Z.pow_succ_r by lia. f_equal. lia. }
  assert (strconv.uint64 (2 ^ (w - 1)) = 2 ^ (w - 1)) as Hcut by (apply Z.mod_small; lia).
  assert (∀ u s0 (neg : bool),
            0 ≤ u ≤ 2 ^ 63 →
            (if neg then 2 ^ (w - 1) < u else 2 ^ (w - 1) ≤ u) →
            (let '(un, err) := strconv.ParseUint IntSize (FormatUint u) 10 bitSize in
             let fatal :=
               match err with
               | None | Some (NumError _ _ ErrRange) => None
               | Some (NumError _ _ e) => Some (NumError "ParseInt" s0 e)
               | Some e => Some e
               end in
             match fatal with
             | Some err => (0, Some err)
             | None =>
                 let bitSize := if bitSize =? 0 then IntSize else bitSize in
                 let cutoff := strconv.uint64 (2 ^ (bitSize - 1)) in
                 if negb neg && (un >=? cutoff)
                 then (strconv.int64 (cutoff - 1), Some (strconv.rangeError "ParseInt" s0))
                 else if neg && (un >? cutoff)
                 then (strconv.int64 (- strconv.int64 cutoff),
                       Some (strconv.rangeError "ParseInt" s0))
                 else
                   let n := strconv.int64 un in
                   (if neg then strconv.int64 (- n) else n, None)
             end).2 = Some (strconv.rangeError "ParseInt" s0)) as Htail.
  { intros u s0 neg Hu Hbig.
    destruct (Z_le_gt_dec u (2 ^ w - 1)) as [Hle|Hgt].
    - rewrite format_facts.ParseUint_FormatUint by (done || (fold w; lia)).
      cbv iota beta zeta. fold (bitWidth IntSize bitSize). fold w. rewrite Hcut.
      destruct neg; cbn [negb andb].
      + by replace (u >? 2 ^ (w - 1)) with true by lia.
      + by replace (u >=? 2 ^ (w - 1)) with true by lia.
    - rewrite ParseUint_FormatUint_over
        by (done || (fold w; unfold strconv.maxUint64; lia)).
      cbv iota beta zeta. fold (bitWidth IntSize bitSize). fold w. rewrite Hcut.
      unfold strconv.rangeError at 1. cbv iota beta.
      destruct neg; cbn [negb andb].
      + by replace (2 ^ w - 1 >? 2 ^ (w - 1)) with true by lia.
      + by replace (2 ^ w - 1 >=? 2 ^ (w - 1)) with true by lia. }
  unfold FormatInt. destruct (i <? 0) eqn:Hneg.
  - unfold strconv.ParseInt.
    change (Ascii.eqb "-" "+") with false. change (Ascii.eqb "-" "-") with true.
    cbv iota beta. apply (Htail (- i) _ true); lia.
  - destruct (format_facts.formatDigits_head 19 i EmptyString) as (d & rest & Hd & Hhead); [lia|].
    fold (FormatUint i) in Hhead.
    destruct (format_facts.digit_not_sign d Hd) as [Hplus Hminus].
    unfold strconv.ParseInt. rewrite Hhead, Hplus, Hminus, <-Hhead.
    apply (Htail i _ false); lia.
Qed.

End overflow_facts.

Module base_facts.
Local Open Scope Z_scope.

Lemma ParseUint_bad_base IntSize s b bitSize :
  b ≠ 0 → b < 2 ∨ 36 < b →
  ∃ e, strconv.ParseUint IntSize s b bitSize = (0, Some (NumError "ParseUint" s e))
       ∧ e ≠ ErrRange.
Proof.
  intros Hb0 Hb. unfold strconv.ParseUint.
  case_decide; [by exists ErrSyntax|].
  unfold strconv.pickBase.
  replace ((2 <=? b) && (b <=? 36)) with false by lia.
  replace (b =? 0) with false by lia.
  by exists (ErrBase b).
Qed.

Lemma ParseInt_bad_base IntSize s b bitSize :
  b ≠ 0 → b < 2 ∨ 36 < b →
  is_Some (strconv.ParseInt IntSize s b bitSize).2.
Proof.
  intros Hb0 Hb. unfold strconv.ParseInt.
  destruct s as [|c0 rest]; [simpl; eexists; reflexivity|].
  destruct (Ascii.eqb c0 "+"); [|destruct (Ascii.eqb c0 "-")];
    match goal with
    | |- context [strconv.ParseUint IntSize ?s' b bitSize] =>
        destruct (ParseUint_bad_base IntSize s' b bitSize Hb0 Hb) as (e & -> & He)
    end; (destruct e; [| done | |]; simpl; eexists; reflexivity).
Qed.

Lemma ParseUint_minus IntSize rest bitSize :
  goWidth IntSize bitSize →
  strconv.ParseUint IntSize (String "-" rest) 10 bitSize
  = (0, Some (strconv.syntaxError "ParseUint" (String "-" rest))).
Proof.
  intros Hw. unfold strconv.ParseUint.
  rewrite decide_False by done.
  change (strconv.pickBase 10 (codes (String "-" rest)))
    with (Some (10, 45 :: codes rest)).
  cbv iota beta.
  assert ((if bitSize =? 0 then Some IntSize
           else if (bitSize <? 0) || (bitSize >? 64) then None else Some bitSize)
          = Some (bitWidth IntSize bitSize)) as ->.
  { unfold bitWidth. destruct Hw as [_ [-> | [-> | [-> | [-> | ->]]]]]; reflexivity. }
  reflexivity.
Qed.

End base_facts.

Section integer_edges.
Context `{Host}.
Local Open Scope Z_scope.

Local Abbreviation store := (gmap string (value float64 Time Image)).

Lemma decodeFormValue_int valf k f value (s : store) :
  isSigned k || isUnsigned k = true →
  decodeFormValue valf k f value s
  = if isSigned k then decodeInt valf (Tag f) (bitSize_of k) value s
    else decodeUint valf (Tag f) (bitSize_of k) value s.
Proof. intros Hk. by destruct k. Qed.

(** X5.  When the decoder of an integer kind returns no error, whatever
    the raw value and the [base] annotation, it has written exactly one
    integer, within the range of the kind: between -2^(w-1) and
    2^(w-1)-1 for a signed kind of width w, between 0 and 2^w-1 for an
    unsigned one.  No value is ever stored truncated. *)
Theorem integer_within_range valf k f value (s s' : store) :
  Kind_of (Type_of valf) = k →
  isSigned k || isUnsigned k = true →
  decodeFormValue valf k f value s = (s', None) →
  ∃ n,
    s' = Set_ s valf (if isSigned k then VInt n else VUint n) ∧
    (if isSigned k then - 2 ^ (bits k - 1) ≤ n ≤ 2 ^ (bits k - 1) - 1
     else 0 ≤ n ≤ 2 ^ bits k - 1).
Proof.
  intros Hkind Hk Hd. destruct (bits_width k Hk) as [Hw Hbits].
  pose proof (strconv_facts.width_range _ _ Hw) as Hw8.
  rewrite decodeFormValue_int in Hd by done.
  destruct (isSigned k).
  - unfold decodeInt in Hd. destruct (base (Tag f)) as [b [e|]]; [done|].
    destruct (strconv.ParseInt IntSize value b (bitSize_of k)) as [n [e|]] eqn:Hp; [done|].
    apply strconv_facts.ParseInt_range in Hp; [|done].
    exists n. rewrite Hbits. split; [|done].
    unfold SetInt in Hd. rewrite Hkind, Hbits in Hd.
    rewrite wrap_signed_small in Hd by lia. by simplify_eq.
  - unfold decodeUint in Hd. destruct (base (Tag f)) as [b [e|]]; [done|].
    destruct (strconv.ParseUint IntSize value b (bitSize_of k)) as [n [e|]] eqn:Hp; [done|].
    apply strconv_facts.ParseUint_result in Hp; [|done].
    exists n. rewrite Hbits. split; [|done].
    unfold SetUint in Hd. rewrite Hkind, Hbits in Hd.
    rewrite wrap_unsigned_small in Hd by lia. by simplify_eq.
Qed.

(** X6.  Without a [base] annotation: the decimal numeral of an int64
    outside the range of a signed kind is rejected with the range error
    of [ParseInt]; the decimal numeral of a uint64 above the range of an
    unsigned kind is rejected with the range error of [ParseUint], and a
    negative numeral with its syntax error.  Nothing is written. *)
Theorem out_of_range_rejected valf k f (s : store) :
  Tag_Lookup (Tag f) "base" = None →
  (isSigned k = true →
     ∀ i, - 2 ^ 63 ≤ i ≤ 2 ^ 63 - 1 →
          i < - 2 ^ (bits k - 1) ∨ 2 ^ (bits k - 1) - 1 < i →
          decodeFormValue valf k f (strconv.FormatInt i) s
          = (s, Some (strconv.rangeError "ParseInt" (strconv.FormatInt i)))) ∧
  (isUnsigned k = true →
     (∀ u, 2 ^ bits k - 1 < u ≤ strconv.maxUint64 →
           decodeFormValue valf k f (strconv.FormatUint u) s
           = (s, Some (strconv.rangeError "ParseUint" (strconv.FormatUint u)))) ∧
     (∀ i, i < 0 →
           decodeFormValue valf k f (strconv.FormatInt i) s
           = (s, Some (strconv.syntaxError "ParseUint" (strconv.FormatInt i))))).
Proof.
  intros Hbase. split.
  - intros Hk i Hi Hout.
    destruct (bits_width k) as [Hw Hbits]; [by rewrite Hk|].
    rewrite decodeFormValue_int by (by rewrite Hk). rewrite Hk.
    unfold decodeInt. rewrite base_default by done.
    pose proof (overflow_facts.ParseInt_FormatInt_over IntSize (bitSize_of k) i Hw Hi) as Hp.
    rewrite <-Hbits in Hp. specialize (Hp Hout).
    destruct (strconv.ParseInt IntSize _ 10 _) as [n e]. simpl in Hp. by subst e.
  - intros Hk.
    destruct (bits_width k) as [Hw Hbits]; [by rewrite Hk, orb_true_r|].
    assert (isSigned k = false) as Hs by (by destruct k).
    split.
    + intros u Hu.
      rewrite decodeFormValue_int by (by rewrite Hk, orb_true_r). rewrite Hs.
      unfold decodeUint. rewrite base_default by done.
      by rewrite overflow_facts.ParseUint_FormatUint_over by (done || (rewrite <-Hbits; lia)).
    + intros i Hi.
      rewrite decodeFormValue_int by (by rewrite Hk, orb_true_r). rewrite Hs.
      unfold decodeUint. rewrite base_default by done.
      unfold strconv.FormatInt. replace (i <? 0) with true by lia.
      by rewrite base_facts.ParseUint_minus.
Qed.

(** X7.  When the [base] annotation of an integer field is a number
    other than 0 and outside 2..36, every raw value is rejected and
    nothing is written. *)
Theorem invalid_base_rejects_all valf k f value (s : store) b :
  isSigned k || isUnsigned k = true →
  requested_base (Tag f) = Ok b →
  b ≠ 0 → b < 2 ∨ 36 < b →
  ∃ err, decodeFormValue valf k f value s = (s, Some err).
Proof.
  intros Hk Hb Hb0 Hbad.
  rewrite decodeFormValue_int by done.
  destruct (isSigned k).
  - unfold decodeInt. rewrite base_requested, Hb.
    destruct (base_facts.ParseInt_bad_base IntSize value b (bitSize_of k) Hb0 Hbad)
      as [err Herr].
    destruct (strconv.ParseInt IntSize value b (bitSize_of k)) as [n e].
    simpl in Herr. subst e. by exists err.
  - unfold decodeUint. rewrite base_requested, Hb.
    destruct (base_facts.ParseUint_bad_base IntSize value b (bitSize_of k) Hb0 Hbad)
      as (e & -> & _).
    by eexists.
Qed.

End integer_edges.

Module tag_facts.

Lemma Split_comma_free x : comma_free x → strings.Split x "," = [x].
Proof.
  unfold comma_free. induction x as [|c x IH]; intros Hx; [done|].
  simpl in *. apply not_elem_of_cons in Hx as [Hc Hx].
  destruct (Ascii.eqb c ",") eqn:Heq; [by apply Ascii.eqb_eq in Heq|].
  by rewrite IH.
Qed.

Lemma Split_cons x tl :
  comma_free x → strings.Split (x +:+ String "," tl) "," = x :: strings.Split tl ",".
Proof.
  unfold comma_free. induction x as [|c x IH]; intros Hx; [done|].
  simpl in *. apply not_elem_of_cons in Hx as [Hc Hx].
  destruct (Ascii.eqb c ",") eqn:Heq; [by apply Ascii.eqb_eq in Heq|].
  by rewrite IH.
Qed.

Lemma Split_Join x rest :
  Forall comma_free (x :: rest) → strings.Split (Join (x :: rest) ",") "," = x :: rest.
Proof.
  revert x. induction rest as [|y rest IH]; intros x Hall.
  - apply Split_comma_free. by apply Forall_inv in Hall.
  - apply Forall_cons in Hall as [Hx Hrest].
    change (Join (x :: y :: rest) ",") with (x +:+ String "," (Join (y :: rest) ",")).
    rewrite Split_cons by done. by rewrite IH.
Qed.

Lemma bool_decide_cons (x o : string) (l : list string) :
  bool_decide (x ∈ o :: l) = bool_decide (x = o) || bool_decide (x ∈ l).
Proof.
  apply eq_true_iff_eq. rewrite orb_true_iff, !bool_decide_eq_true.
  apply elem_of_cons.
Qed.

Lemma fold_flags options init :
  fold_left
    (λ (f : flags) (option : string),
       if decide (option = "base64"%string)
       then {| base64 := true; required := required f |}
       else if decide (option = "required"%string)
       then {| base64 := base64 f; required := true |}
       else f)
    options init
  = {| base64 := base64 init || bool_decide ("base64"%string ∈ options);
       required := required init || bool_decide ("required"%string ∈ options) |}.
Proof.
  revert init. induction options as [|o options IH]; intros [b q].
  - cbn. by rewrite !orb_false_r.
  - cbn [fold_left]. rewrite IH, !bool_decide_cons.
    destruct (decide (o = "base64"%string)) as [->|Hb];
      [|destruct (decide (o = "required"%string)) as [->|Hq]];
      repeat case_bool_decide; simplify_eq; cbn;
      by rewrite ?orb_true_r, ?orb_false_r.
Qed.

End tag_facts.

(** X1.  [parseTag] on a key and options separated by commas (none of
    them containing a comma) returns the key, with [base64] set exactly
    when the word base64 is among the options and [required] exactly
    when the word required is; other options, the order and repetitions
    change nothing. *)
Theorem parseTag_Join key options :
  Forall comma_free (key :: options) →
  parseTag (Join (key :: options) ",")
  = (key, {| base64 := bool_decide ("base64"%string ∈ options);
             required := bool_decide ("required"%string ∈ options) |}).
Proof.
  intros Hall. unfold parseTag. rewrite tag_facts.Split_Join by done.
  by rewrite tag_facts.fold_flags.
Qed.

Section skipping.
Context `{Host}.

Local Abbreviation store := (gmap string (value float64 Time Image)).

(** X2.  A field without a [form] annotation, or whose annotation is
    empty, is [-], or starts with a comma or with [-,] (so also
    [-,required]), is passed over: its step writes nothing and returns
    no error, whatever the request holds, and the loop goes on with the
    next field. *)
Theorem skipped_field_untouched r f rest (s : store) :
  Tag_Lookup (Tag f) "form" = None
  ∨ (∃ tag, Tag_Lookup (Tag f) "form" = Some tag ∧
       (tag = EmptyString ∨ tag = "-"%string
        ∨ (∃ options, tag = String "," options)
        ∨ (∃ options, tag = String "-" (String "," options)))) →
  bindField r f s = (s, None) ∧ bindFields r (f :: rest) s = bindFields r rest s.
Proof.
  intros Hskip.
  assert ((parseTag (Tag_Get (Tag f) "form")).1 = EmptyString
          ∨ (parseTag (Tag_Get (Tag f) "form")).1 = "-"%string) as Hkey.
  { unfold Tag_Get.
    destruct Hskip as [-> | (tag & -> & [-> | [-> | [[options ->] | [options ->]]]])];
      unfold parseTag; simpl;
      [by left | by left | by right | by left
      | destruct (strings.Split options ","); by right]. }
  assert (bindField r f s = (s, None)) as Hb.
  { unfold bindField. destruct (parseTag _) as [tag tagOptions]. simpl in Hkey.
    by rewrite decide_True. }
  split; [done|]. simpl. by rewrite Hb.
Qed.

End skipping.

Section pointers.
Context `{Host}.

Local Abbreviation store := (gmap string (value float64 Time Image)).

Lemma decodeFormValue_tag valf kind f g formValue (s : store) :
  Tag f = Tag g →
  decodeFormValue valf kind f formValue s = decodeFormValue valf kind g formValue s.
Proof.
  intros Htag. destruct kind; simpl; try done; unfold decodeStruct; by rewrite Htag.
Qed.

(** What the loop does with the values under the key of a field, at a
    place of type [t]: an optional write and an error, the same at every
    place and store. *)
Lemma lookup_shape r f tag tagOptions t :
  ∃ o e,
    (∀ a (s : store),
       (if decide (1 < length (default [] (http.Form r !! tag)))%nat
        then (s, Some (errors_New "goform: arrays not supported yet"))
        else match default [] (http.Form r !! tag) with
             | [] => decodeMultipart r tag {| at_ := a; Type_of := t |} (Kind_of t) tagOptions s
             | formValue :: _ =>
                 decodeFormValue {| at_ := a; Type_of := t |} (Kind_of t) f formValue s
             end)
       = (applied {| at_ := a; Type_of := t |} o s, e))
    ∧ (is_Some e → o = None).
Proof.
  case_decide.
  - exists None, (Some (errors_New "goform: arrays not supported yet")).
    split; [intros ? ?; reflexivity|done].
  - destruct (default [] (http.Form r !! tag)) as [|formValue rest].
    + apply decodeMultipart_shape.
    + apply decodeFormValue_shape.
Qed.

(** X15.  A field of type pointer-to-T (T not a pointer itself) with a
    tag other than the empty string and [-] is bound like the same field
    declared with type T: the step returns the same error or none, and
    leaves the field pointing to the value the T field would hold after
    its own step when it started at the zero value of T. *)
Theorem pointer_field_like_plain r f t (s : store) tag tagOptions :
  Type_ f = TPtr t →
  Kind_of t ≠ Ptr →
  parseTag (Tag_Get (Tag f) "form") = (tag, tagOptions) →
  tag ≠ EmptyString → tag ≠ "-"%string →
  (bindField r f s).2 = (bindField r (retyped f t) s).2 ∧
  ∃ x,
    (bindField r (retyped f t) (<[Name f := zero t]> s)).1 !! Name f = Some x ∧
    (bindField r f s).1 = <[Name f := VPtr x]> s.
Proof.
  intros Hty Hk Htag Hne1 Hne2.
  destruct (lookup_shape r f tag tagOptions t) as (o & e & Hshape & _).
  assert (∀ s0 : store, bindField r f s0 = (<[Name f := VPtr (default (zero t) o)]> s0, e))
    as Hf.
  { intros s0. unfold bindField. rewrite Htag, Hty. simpl.
    rewrite decide_False by (intros [?|?]; done).
    unfold Indirect, FieldByName. simpl. rewrite Hshape.
    unfold applied, Set_. simpl. destruct o; simpl; [|done]. by rewrite insert_insert_eq. }
  assert (∀ s0 : store,
            bindField r (retyped f t) s0 = (written (Name f) o s0, e)) as Hg.
  { intros s0. unfold bindField, retyped. simpl. rewrite Htag.
    rewrite decide_False by (intros [?|?]; done).
    rewrite decide_False by done.
    unfold FieldByName.
    assert (∀ formValue,
              decodeFormValue {| at_ := Field (Name f); Type_of := t |} (Kind_of t)
                {| Name := Name f; Type_ := t; Tag := Tag f |} formValue s0
              = decodeFormValue {| at_ := Field (Name f); Type_of := t |} (Kind_of t)
                  f formValue s0) as Hdec
      by (intros; by apply decodeFormValue_tag).
    specialize (Hshape (Field (Name f)) s0).
    destruct (decide (1 < length (default [] (http.Form r !! tag)))%nat) as [Hlen|Hlen];
      [|destruct (default [] (http.Form r !! tag)) as [|formValue rest]];
      rewrite ?Hdec, Hshape; unfold applied, written, Set_; by destruct o. }
  rewrite !Hf, !Hg. split; [done|].
  exists (default (zero t) o). split; [|done].
  unfold written. destruct o; simpl; apply lookup_insert_eq.
Qed.

End pointers.

Section pipeline.
Context `{Host}.

Local Abbreviation store := (gmap string (value float64 Time Image)).

(** [Unmarshal] on a pointer to a struct, once the media type parses. *)
Lemma Unmarshal_struct r fields (s : store) mediaType :
  mime_ParseMediaType mime_params (http.Header_Get (http.Header r) "Content-Type")
  = (mediaType, None) →
  Unmarshal r (DPtr fields s)
  = match (if decide (mediaType = "application/json"%string)
           then match json_readValue (http.Body r) with
                | Some err => (s, Some err)
                | None => json_unmarshal (http.Body r) fields s
                end
           else (s, None)) with
    | (s0, Some err) => (http.closeBody r, DPtr fields s0, Returned (Some err))
    | (s0, None) =>
        let r' := ParseMultipartForm r defaultMaxMemory in
        (http.closeBody r', DPtr fields (bindFields r' fields s0).1,
         Returned (bindFields r' fields s0).2)
    end.
Proof.
  intros Hmt. unfold Unmarshal. rewrite Hmt.
  case_decide.
  - unfold json_Decode. destruct (json_readValue (http.Body r)) as [e|]; [done|].
    destruct (json_unmarshal (http.Body r) fields s) as [s0 [e|]]; [done|].
    by destruct (bindFields _ fields s0).
  - by destruct (bindFields _ fields s).
Qed.

(** X13.  When [Unmarshal] into a pointer to a struct (with distinct
    field names) returns no error, the request returned is the parsed
    request with its body closed, and every field holds what the step of
    the loop for that field alone yields from the record as it was before
    the loop (as given, or as the JSON decoder left it): the fields are
    bound independently of each other and of their order. *)
Theorem unmarshal_fields_independent r fields (s : store) r' v' :
  NoDup (map Name fields) →
  Unmarshal r (DPtr fields s) = (r', v', Returned None) →
  ∃ s0 s',
    v' = DPtr fields s' ∧
    r' = http.closeBody (ParseMultipartForm r defaultMaxMemory) ∧
    (s0 = s ∨ json_unmarshal (http.Body r) fields s = (s0, None)) ∧
    ∀ f, f ∈ fields →
      s' !! Name f = (bindField (ParseMultipartForm r defaultMaxMemory) f s0).1 !! Name f.
Proof.
  intros Hnd Hu.
  destruct (mime_ParseMediaType mime_params (http.Header_Get (http.Header r) "Content-Type"))
    as [mediaType [e|]] eqn:Hmt.
  { unfold Unmarshal in Hu. rewrite Hmt in Hu. done. }
  rewrite (Unmarshal_struct r fields s mediaType Hmt) in Hu.
  set (r1 := ParseMultipartForm r defaultMaxMemory) in *.
  assert (∀ s0, (let r' := r1 in
                 (http.closeBody r', DPtr fields (bindFields r' fields s0).1,
                  Returned (bindFields r' fields s0).2)) = (r', v', Returned None) →
            v' = DPtr fields (bindFields r1 fields s0).1 ∧ r' = http.closeBody r1 ∧
            ∀ f, f ∈ fields →
              (bindFields r1 fields s0).1 !! Name f = (bindField r1 f s0).1 !! Name f)
    as Hloop.
  { intros s0 Heq. simpl in Heq. simplify_eq. split_and!; [done..|].
    intros f Hf. apply (bindFields_own r1 fields s0); [done| |done].
    destruct (bindFields r1 fields s0) as [s1 e1]. simpl in *. congruence. }
  case_decide.
  - destruct (json_readValue (http.Body r)) as [e|]; [done|].
    destruct (json_unmarshal (http.Body r) fields s) as [s0 [e|]] eqn:Hj; [done|].
    destruct (Hloop s0 Hu) as (-> & -> & Hown).
    exists s0, (bindFields r1 fields s0).1. split_and!; auto.
  - destruct (Hloop s Hu) as (-> & -> & Hown).
    exists s, (bindFields r1 fields s).1. split_and!; auto.
Qed.

(** X14.  When the media type is application/json and [Unmarshal] into
    a pointer to a struct returns no error: the JSON decoder ran first
    and without error, a field the loop passes over (no [form] key)
    holds the value the JSON decoder left, and a string field whose key
    has one form value holds that form value, whatever the JSON decoder
    had put there. *)
Theorem form_overrides_json r fields (s : store) r' s' :
  NoDup (map Name fields) →
  mime_ParseMediaType mime_params (http.Header_Get (http.Header r) "Content-Type")
  = ("application/json"%string, None) →
  Unmarshal r (DPtr fields s) = (r', DPtr fields s', Returned None) →
  ∃ s_json,
    json_unmarshal (http.Body r) fields s = (s_json, None) ∧
    ∀ f tag tagOptions,
      f ∈ fields →
      parseTag (Tag_Get (Tag f) "form") = (tag, tagOptions) →
      (tag = EmptyString ∨ tag = "-"%string → s' !! Name f = s_json !! Name f) ∧
      (∀ formValue,
         tag ≠ EmptyString → tag ≠ "-"%string →
         Type_ f = TBasic String_ →
         default [] (http.Form (ParseMultipartForm r defaultMaxMemory) !! tag) = [formValue] →
         s' !! Name f = Some (VString formValue)).
Proof.
  intros Hnd Hmt Hu.
  rewrite (Unmarshal_struct r fields s _ Hmt) in Hu.
  rewrite decide_True in Hu by done.
  destruct (json_readValue (http.Body r)) as [e|]; [done|].
  destruct (json_unmarshal (http.Body r) fields s) as [s_json [e|]]; [done|].
  set (r1 := ParseMultipartForm r defaultMaxMemory) in *. simpl in Hu.
  exists s_json. split; [done|].
  intros f tag tagOptions Hf Htag.
  assert (s' !! Name f = (bindField r1 f s_json).1 !! Name f) as Hown.
  { simplify_eq. apply (bindFields_own r1 fields s_json); [done| |done].
    destruct (bindFields r1 fields s_json) as [s1 e1]. simpl in *. congruence. }
  rewrite Hown. split.
  - intros Hskip. unfold bindField. rewrite Htag. by rewrite decide_True.
  - intros formValue Hne1 Hne2 Hty Hform.
    rewrite (bindField_one_value r1 f s_json tag tagOptions formValue) by done.
    unfold effPlace, effType, allocate. rewrite Hty. simpl.
    apply lookup_insert_eq.
Qed.

End pipeline.

Section images.
Context `{Host}.

Local Abbreviation store := (gmap string (value float64 Time Image)).

(** X10.  For an [image.Image] field bound from a file part that opens:
    without the [base64] option the image decoder is given the content
    of the part; with it, when the content is the standard encoding of
    some bytes, the image decoder is given those bytes.  The field is
    assigned the decoded image, or the step fails with the decoder's
    error and writes nothing. *)
Theorem image_from_file r f (s : store) tag tagOptions form hdr rest rd :
  Type_ f = TImage →
  parseTag (Tag_Get (Tag f) "form") = (tag, tagOptions) →
  tag ≠ EmptyString → tag ≠ "-"%string →
  default [] (http.Form r !! tag) = [] →
  http.MultipartForm r = Some form →
  default [] (multipart.File form !! tag) = hdr :: rest →
  multipart.Open hdr = Ok rd →
  (base64 tagOptions = false →
     bindField r f s
     = match image_Decode rd with
       | Ok img => (<[Name f := VImage img]> s, None)
       | Err err => (s, Some err)
       end) ∧
  (base64 tagOptions = true →
     ∀ decoded, r_err rd = None → r_data rd = base64.Encode decoded →
       bindField r f s
       = match image_Decode {| r_data := decoded; r_err := None |} with
         | Ok img => (<[Name f := VImage img]> s, None)
         | Err err => (s, Some err)
         end).
Proof.
  intros Hty Htag Hne1 Hne2 Hform Hmf Hfile Hopen.
  rewrite (bindField_file r f s tag tagOptions form hdr rest) by done.
  unfold decodeMultipartFile, effPlace, effType, allocate.
  rewrite Hopen, Hty. simpl.
  split; intros Hb64; rewrite Hb64.
  - by destruct (image_Decode rd).
  - intros decoded Herr Henc.
    assert (base64.NewDecoder rd = {| r_data := decoded; r_err := None |}) as ->.
    { unfold base64.NewDecoder. rewrite Henc.
      pose proof (Encode_decodes_to decoded) as Hd. unfold decodes_to in Hd.
      by rewrite Hd, Herr. }
    by destruct (image_Decode _).
Qed.

End images.

Module segment_facts.

Lemma Split_not_nil s : strings.Split s "," ≠ [].
Proof. destruct s as [|c s]; [done|]. simpl. by repeat case_match. Qed.

Lemma Split_segments s :
  Forall comma_free (strings.Split s ",") ∧ Join (strings.Split s ",") "," = s.
Proof.
  induction s as [|c s [IHall IHjoin]].
  - split; [|done]. constructor; [|done]. unfold comma_free. simpl. apply not_elem_of_nil.
  - simpl. destruct (Ascii.eqb c ",") eqn:Heq.
    + apply Ascii.eqb_eq in Heq as ->. split.
      * constructor; [|done]. unfold comma_free. simpl. apply not_elem_of_nil.
      * pose proof (Split_not_nil s).
        destruct (strings.Split s ",") as [|x xs] eqn:Hs; [done|].
        cbn [Join]. simpl. by rewrite <-IHjoin.
    + pose proof (Split_not_nil s).
      destruct (strings.Split s ",") as [|x xs] eqn:Hs; [done|].
      apply Forall_cons in IHall as [Hx Hxs]. split.
      * constructor; [|done]. unfold comma_free in *. simpl.
        apply not_elem_of_cons. split; [|done].
        intros <-. by rewrite Ascii.eqb_refl in Heq.
      * rewrite <-IHjoin. by destruct xs.
Qed.

End segment_facts.

(** X17.  Every annotation is a key followed by options, separated by
    commas and free of commas themselves, and [parseTag] returns that
    key with [base64] and [required] set exactly when these words are
    among the options: the key is the text before the first comma. *)
Theorem parseTag_segments tag :
  ∃ key options,
    Forall comma_free (key :: options) ∧
    tag = Join (key :: options) "," ∧
    parseTag tag
    = (key, {| base64 := bool_decide ("base64"%string ∈ options);
               required := bool_decide ("required"%string ∈ options) |}).
Proof.
  destruct (segment_facts.Split_segments tag) as [Hall Hjoin].
  pose proof (segment_facts.Split_not_nil tag) as Hne.
  unfold parseTag.
  destruct (strings.Split tag ",") as [|key options]; [done|].
  exists key, options. split_and!; [done..|].
  by rewrite tag_facts.fold_flags.
Qed.

Section first.
Context `{Host}.

Local Abbreviation store := (gmap string (value float64 Time Image)).

(** X16.  The loop returns the error of the first field, in declaration
    order, whose own step returns one, and none when no step does; the
    errors of the steps can be taken from any record of the same
    declaration, since no step reads the destination. *)
Theorem bind_error_first_failing r fields (s s0 : store) :
  (bindFields r fields s).2 = first_error (map (λ f, (bindField r f s0).2) fields).
Proof.
  revert s. induction fields as [|f rest IH]; intros s; [done|].
  simpl. destruct (bindField_shape r f) as (o & e & Hshape & _).
  rewrite !Hshape. unfold first_error in *. simpl.
  destruct e as [e|]; [done|]. simpl. apply IH.
Qed.

End first.

(** ** Instances of the further properties *)

Lemma parseTag_Join_witness :
  Forall comma_free ["headshot"; "omitempty"; "required"]%string ∧
  parseTag "headshot,omitempty,required"
  = ("headshot"%string, {| base64 := false; required := true |}).
Proof.
  assert (Forall comma_free ["headshot"; "omitempty"; "required"]%string) as Hall.
  { unfold comma_free. repeat constructor; apply (bool_decide_unpack _); vm_compute; reflexivity. }
  split; [exact Hall|].
  exact (parseTag_Join "headshot" ["omitempty"; "required"]%string Hall).
Defined.

Lemma skipped_field_untouched_witness :
  bindField (H := textHost) secretRequest secretField {[ "Secret"%string := VString "s" ]}
  = ({[ "Secret"%string := VString "s" ]}, None) ∧
  bindFields (H := textHost) secretRequest [secretField; nickField]
    {[ "Secret"%string := VString "s" ]}
  = bindFields (H := textHost) secretRequest [nickField] {[ "Secret"%string := VString "s" ]}.
Proof.
  apply (skipped_field_untouched (H := textHost)).
  right. exists "-,required"%string. split; [reflexivity|].
  right. right. right. exists "required"%string. reflexivity.
Defined.

Lemma form_value_bytes_raw_witness :
  bindField (H := textHost) headshotTwice headshotField {[ "Headshot"%string := VNil ]}
  = (<["Headshot"%string := VBytes (list_ascii_of_string "QUJDRA==")]>
       {[ "Headshot"%string := VNil ]}, None).
Proof.
  apply (form_value_bytes_raw (H := textHost) headshotTwice headshotField _ "headshot"
           {| base64 := true; required := false |} "QUJDRA==").
  - reflexivity.
  - reflexivity.
  - discriminate.
  - discriminate.
  - reflexivity.
Defined.

Lemma unsupported_kind_rejected_witness :
  bindField (H := textHost) photoValue photoField {[ "Photo"%string := VNil ]}
  = ({[ "Photo"%string := VNil ]}, Some (errors_New "goform: invalid destination type")).
Proof.
  apply (unsupported_kind_rejected (H := textHost) photoValue photoField _ "photo"
           {| base64 := true; required := false |} "abc").
  - reflexivity.
  - discriminate.
  - discriminate.
  - reflexivity.
  - left. reflexivity.
Defined.

Lemma integer_within_range_witness :
  ∃ n : Z,
    <["Mask"%string := VUint 255]> ({[ "Mask"%string := VUint 0 ]} : gmap string tvalue)
    = Set_ (H := textHost) {[ "Mask"%string := VUint 0 ]} (FieldByName "Mask" (TBasic Uint8))
        (VUint n) ∧
    (0 ≤ n ≤ 2 ^ 8 - 1)%Z.
Proof.
  apply (integer_within_range (H := textHost) (FieldByName "Mask" (TBasic Uint8)) Uint8
           maskField "fF" {[ "Mask"%string := VUint 0 ]}).
  - reflexivity.
  - reflexivity.
  - reflexivity.
Defined.

Lemma out_of_range_rejected_witness :
  decodeFormValue (H := textHost) (FieldByName "Level" (TBasic Int8)) Int8 levelField "128"
    {[ "Level"%string := VInt 0 ]}
  = ({[ "Level"%string := VInt 0 ]}, Some (strconv.rangeError "ParseInt" "128")).
Proof.
  destruct (out_of_range_rejected (H := textHost) (FieldByName "Level" (TBasic Int8)) Int8
              levelField {[ "Level"%string := VInt 0 ]} eq_refl) as [Hsigned _].
  apply (Hsigned eq_refl 128%Z); [lia|]. right. vm_compute. reflexivity.
Defined.

Lemma invalid_base_rejects_all_witness :
  ∃ err,
    decodeFormValue (H := textHost) (FieldByName "Odd" (TBasic Int)) Int oddField "0"
      {[ "Odd"%string := VInt 0 ]}
    = ({[ "Odd"%string := VInt 0 ]}, Some err).
Proof.
  apply (invalid_base_rejects_all (H := textHost) _ Int oddField "0" _ 1%Z).
  - reflexivity.
  - reflexivity.
  - discriminate.
  - left. reflexivity.
Defined.

Lemma file_part_ignored_witness :
  bindField (H := textHost) titleUpload titleField {[ "Title"%string := VString "t" ]}
  = ({[ "Title"%string := VString "t" ]}, None).
Proof.
  apply (file_part_ignored (H := textHost) titleUpload titleField _ "title"
           {| base64 := false; required := true |}
           {| multipart.Value := ∅;
              multipart.File := list_to_map [("title"%string, [upload "ABCD"])] |}
           (upload "ABCD") []
           {| r_data := list_ascii_of_string "ABCD"; r_err := None |}).
  - reflexivity.
  - discriminate.
  - discriminate.
  - reflexivity.
  - reflexivity.
  - reflexivity.
  - reflexivity.
  - discriminate.
  - reflexivity.
Defined.

Lemma corrupt_base64_rejected_witness :
  ∃ err,
    bindField (H := textHost) brokenUpload headshotField {[ "Headshot"%string := VNil ]}
    = ({[ "Headshot"%string := VNil ]}, Some err).
Proof.
  apply (corrupt_base64_rejected (H := textHost) brokenUpload headshotField _ "headshot"
           {| base64 := true; required := false |}
           {| multipart.Value := ∅;
              multipart.File := list_to_map [("headshot"%string, [upload "QUJD!A=="])] |}
           (upload "QUJD!A==") []
           {| r_data := list_ascii_of_string "QUJD!A=="; r_err := None |}).
  - reflexivity.
  - reflexivity.
  - discriminate.
  - discriminate.
  - reflexivity.
  - reflexivity.
  - reflexivity.
  - reflexivity.
  - reflexivity.
  - left. exists "!"%char. split.
    + apply (bool_decide_unpack _). vm_compute. reflexivity.
    + split; [reflexivity|]. split; [discriminate|reflexivity].
Defined.

Lemma image_from_file_witness :
  bindField (H := textHost) photoUpload photoField {[ "Photo"%string := VNil ]}
  = (<["Photo"%string := VImage (list_ascii_of_string "ABCD")]> {[ "Photo"%string := VNil ]},
     None).
Proof.
  destruct (image_from_file (H := textHost) photoUpload photoField
              {[ "Photo"%string := VNil ]} "photo"
              {| base64 := true; required := false |}
              {| multipart.Value := ∅;
                 multipart.File := list_to_map [("photo"%string, [upload "QUJDRA=="])] |}
              (upload "QUJDRA==") []
              {| r_data := list_ascii_of_string "QUJDRA=="; r_err := None |})
    as [_ Hb64];
    [reflexivity | reflexivity | discriminate | discriminate
    | reflexivity | reflexivity | reflexivity | reflexivity |].
  exact (Hb64 eq_refl (list_ascii_of_string "ABCD") eq_refl eq_refl).
Defined.

Lemma failing_step_writes_nothing_witness :
  bindField (H := textHost) badAge (field "Age" (TBasic Int) "age") {[ "Age"%string := VInt 7 ]}
  = ({[ "Age"%string := VInt 7 ]}, Some (NumError "ParseInt" "x" ErrSyntax)) ∧
  (bindField (H := textHost) badAge (field "Age" (TBasic Int) "age")
     {[ "Age"%string := VInt 7 ]}).1
  = {[ "Age"%string := VInt 7 ]}.
Proof.
  split; [reflexivity|].
  apply (failing_step_writes_nothing (H := textHost) badAge (field "Age" (TBasic Int) "age")
           {[ "Age"%string := VInt 7 ]} _ (NumError "ParseInt" "x" ErrSyntax)).
  - discriminate.
  - reflexivity.
Defined.

Lemma unmarshal_fields_independent_witness :
  ∃ (s0 s' : gmap string tvalue),
    DPtr (H := textHost) bodyFields
      (list_to_map [("ID", VInt 1); ("Age", VInt 39); ("Name", VString "rick")]%string)
    = DPtr (H := textHost) bodyFields s' ∧
    http.closeBody
      (formRequest urlencoded [("id", ["1"]); ("name", ["rick"]); ("age", ["39"])]%string None)
    = http.closeBody
        (ParseMultipartForm (Host := textHost)
           (formRequest urlencoded [("id", ["1"]); ("name", ["rick"]); ("age", ["39"])]%string
              None) (defaultMaxMemory)) ∧
    (s0 = bodyZero
     ∨ json_unmarshal (Host := textHost) [] bodyFields bodyZero = (s0, None)) ∧
    ∀ f, f ∈ bodyFields →
      s' !! Name f
      = (bindField (H := textHost)
           (ParseMultipartForm (Host := textHost)
              (formRequest urlencoded
                 [("id", ["1"]); ("name", ["rick"]); ("age", ["39"])]%string None)
              defaultMaxMemory) f s0).1 !! Name f.
Proof.
  apply (unmarshal_fields_independent (H := textHost)
           (formRequest urlencoded [("id", ["1"]); ("name", ["rick"]); ("age", ["39"])]%string
              None) bodyFields bodyZero).
  - apply (bool_decide_unpack _). vm_compute. reflexivity.
  - vm_compute. reflexivity.
Defined.

Lemma form_overrides_json_witness :
  ∃ s_json : gmap string tvalue,
    json_unmarshal (Host := textHost) (http.Body jsonQuery) overrideFields overrideDecoded
    = (s_json, None) ∧
    ∀ f tag tagOptions,
      f ∈ overrideFields →
      parseTag (Tag_Get (Tag f) "form") = (tag, tagOptions) →
      (tag = EmptyString ∨ tag = "-"%string →
         (list_to_map [("Name", VString "abc"); ("Age", VInt 39)]%string
            : gmap string tvalue) !! Name f = s_json !! Name f) ∧
      (∀ formValue,
         tag ≠ EmptyString → tag ≠ "-"%string →
         Type_ f = TBasic String_ →
         default []
           (http.Form (ParseMultipartForm (Host := textHost) jsonQuery defaultMaxMemory) !! tag)
         = [formValue] →
         (list_to_map [("Name", VString "abc"); ("Age", VInt 39)]%string
            : gmap string tvalue) !! Name f = Some (VString formValue)).
Proof.
  apply (form_overrides_json (H := textHost) jsonQuery overrideFields overrideDecoded
           (http.closeBody jsonQuery)).
  - apply (bool_decide_unpack _). vm_compute. reflexivity.
  - reflexivity.
  - vm_compute. reflexivity.
Defined.

Lemma pointer_field_like_plain_witness :
  (bindField (H := textHost) nickBob nickField {[ "Nick"%string := VNil ]}).2
  = (bindField (H := textHost) nickBob (retyped nickField (TBasic String_))
       {[ "Nick"%string := VNil ]}).2 ∧
  ∃ x : tvalue,
    (bindField (H := textHost) nickBob (retyped nickField (TBasic String_))
       (<["Nick"%string := zero (H := textHost) (TBasic String_)]> {[ "Nick"%string := VNil ]})).1
      !! "Nick"%string = Some x ∧
    (bindField (H := textHost) nickBob nickField {[ "Nick"%string := VNil ]}).1
    = <["Nick"%string := VPtr x]> {[ "Nick"%string := VNil ]}.
Proof.
  apply (pointer_field_like_plain (H := textHost) nickBob nickField (TBasic String_)
           {[ "Nick"%string := VNil ]} "nick" {| base64 := false; required := false |}).
  - reflexivity.
  - discriminate.
  - reflexivity.
  - discriminate.
  - discriminate.
Defined.
